(** * Payment and deposit workflow of the freelancer marketplace backend

    A shallow embedding of [src/middleware/getProfile.js] and of the two
    balance-moving endpoints of [src/app.js]
    ([POST /jobs/:job_id/pay] and [POST /balances/deposit/:userId]),
    together with the properties of the payment workflow.

    Modelling decisions.
    - The persistence store is three tables, each a list of rows.  A
      [where] clause is a filter over the rows, [Model.update] rewrites
      every row the clause selects, [findOne]/[findByPk] return the first
      selected row.
    - Amounts (balance, price, deposit amount) are rationals [Qc]; time
      stamps are integers.  The handlers are given twice: first with the
      exact operations on amounts, then ([Rounded]) with the rounding of
      every operation and the [SUM] aggregate of the store as
      parameters, binary64 ([round64], [sum64]) being one instance and
      the exact handlers another.  What depends on the arithmetic is
      stated on the second.
    - [post_pay] and [post_deposit] run the guard and the handler back to
      back: the request is served without a write of another request in
      between.  [pay_handler] alone takes the profile as the guard read
      it, whatever the store holds by then.
    - Every awaited store call may reject.  The outcome of the successive
      store calls of a request is read from a list of booleans carried by
      the world ([true]: the call rejects and leaves the store as it was);
      an exhausted list means that the remaining calls resolve.
    - What lies outside the repository is a parameter: the way the store
      reads a text (header, path parameter) as an integer key, and
      JavaScript's [parseInt]. *)

From Stdlib Require Import ZArith QArith Qcanon List String Bool Lia.
From Stdlib Require Import DecimalString.
From Stdlib Require Import PrimFloat FloatOps SpecFloat Uint63.
Import ListNotations.

Local Open Scope string_scope.
Local Open Scope Z_scope.

(** ** Data model *)

(** Modelled from the spec: the model declarations ([./model], required by
    [app.js]) are not among the sources; the tables have the columns of
    the data model of the specification, and the handlers read and write
    no other column. *)
Inductive ProfileType := client | contractor.

Inductive ContractStatus := new | in_progress | terminated.

Module Profile.
(** Modelled from the spec: a row of the Profile table. *)
Record t := mk {
  id : Z;
  type : ProfileType;
  balance : Qc;
  firstName : string;
  lastName : string;
  profession : string
}.

(** [SET balance = b], every other column kept. *)
Definition with_balance (b : Qc) (p : t) : t :=
  mk (id p) (type p) b (firstName p) (lastName p) (profession p).
End Profile.

Module Contract.
(** Modelled from the spec: a row of the Contract table. *)
Record t := mk {
  id : Z;
  ClientId : Z;
  ContractorId : Z;
  status : ContractStatus
}.
End Contract.

Module Job.
(** Modelled from the spec: a row of the Job table; [paid] is a boolean or
    [null]. *)
Record t := mk {
  id : Z;
  ContractId : Z;
  price : Qc;
  paid : option bool;
  paymentDate : option Z
}.

(** [SET paid = true, paymentDate = now], every other column kept. *)
Definition mark_paid (now : Z) (j : t) : t :=
  mk (id j) (ContractId j) (price j) (Some true) (Some now).
End Job.

Record Store := mkStore {
  profiles : list Profile.t;
  contracts : list Contract.t;
  jobs : list Job.t
}.

Definition ProfileType_eqb (a b : ProfileType) : bool :=
  match a, b with
  | client, client | contractor, contractor => true
  | _, _ => false
  end.

Definition ContractStatus_eqb (a b : ContractStatus) : bool :=
  match a, b with
  | new, new | in_progress, in_progress | terminated, terminated => true
  | _, _ => false
  end.

(** JavaScript [a < b] and [a > b] on numbers. *)
Definition Qcltb (a b : Qc) : bool :=
  match (a ?= b)%Qc with Lt => true | _ => false end.

Definition Qcgtb (a b : Qc) : bool :=
  match (a ?= b)%Qc with Gt => true | _ => false end.

(** ** Responses *)

Inductive Body := error (text : string) | message (text : string).

Record Response := json { status : Z; body : Body }.

(** What the middleware leaves behind: a response, or [req.profile] set and
    [next()] called. *)
Inductive Guard := Respond (r : Response) | Next (profile : Profile.t).

(** ** Awaited store calls *)

Record World := mkWorld { store : Store; faults : list bool }.

Inductive Settled (A : Type) : Type := Resolved (a : A) | Rejected.
Arguments Resolved {A} a.
Arguments Rejected {A}.

Definition Async (A : Type) : Type := World -> Settled A * World.

Definition ret {A} (a : A) : Async A := fun w => (Resolved a, w).

Definition bind {A B} (m : Async A) (k : A -> Async B) : Async B :=
  fun w =>
    match m w with
    | (Resolved a, w') => k a w'
    | (Rejected, w') => (Rejected, w')
    end.

Notation "x <- m ;; k" := (bind m (fun x => k))
  (at level 61, m at next level, right associativity).
Notation "m ;;; k" := (bind m (fun _ => k))
  (at level 61, right associativity).

(** A thrown exception (here: reading a property of [null]). *)
Definition throw {A} : Async A := fun w => (Rejected, w).

(** One store call: the next outcome is consumed; a rejected call leaves
    the store untouched. *)
Definition call {A} (f : Store -> A * Store) : Async A :=
  fun w =>
    match faults w with
    | true :: fs => (Rejected, mkWorld (store w) fs)
    | false :: fs => let (a, s) := f (store w) in (Resolved a, mkWorld s fs)
    | [] => let (a, s) := f (store w) in (Resolved a, mkWorld s [])
    end.

Definition query {A} (f : Store -> A) : Async A :=
  call (fun s => (f s, s)).

Definition exec (f : Store -> Store) : Async unit :=
  call (fun s => (tt, f s)).

(** [try { body } catch (error) { handler }] around a body that ends by
    sending a response. *)
Definition try_catch {A} (body : Async A) (handler : A) (w : World)
  : A * World :=
  match body w with
  | (Resolved a, w') => (a, w')
  | (Rejected, w') => (handler, w')
  end.

(** ** Observations on a store *)

Definition profile_by_id (pid : Z) (ps : list Profile.t) : option Profile.t :=
  find (fun p => Profile.id p =? pid) ps.

Definition balance_of (st : Store) (pid : Z) : option Qc :=
  option_map Profile.balance (profile_by_id pid (profiles st)).

Definition job_by_id (jid : Z) (js : list Job.t) : option Job.t :=
  find (fun j => Job.id j =? jid) js.

Fixpoint sum_balances (ps : list Profile.t) : Qc :=
  match ps with
  | [] => 0%Qc
  | p :: ps' => (Profile.balance p + sum_balances ps')%Qc
  end.

Definition total_balance (st : Store) : Qc := sum_balances (profiles st).

Definition profile_ids (st : Store) : list Z := map Profile.id (profiles st).

(** The first [n] store calls of the request resolve. *)
Definition resolves (n : nat) (fs : list bool) : Prop :=
  forall i, (i < n)%nat -> nth i fs false = false.

(** Every store call from the [n]-th on resolves. *)
Definition resolves_from (n : nat) (fs : list bool) : Prop :=
  forall i, (n <= i)%nat -> nth i fs false = false.

Section Handlers.

(** How the store reads the text of a header or of a path parameter when
    it compares it with an integer key; [None]: the text equals no key. *)
Variable key_of_text : string -> option Z.

(** JavaScript's [parseInt]; [None] stands for [NaN]. *)
Variable parseInt : string -> option Z.

Definition key_matches (text : string) (k : Z) : bool :=
  match key_of_text text with
  | Some k' => k' =? k
  | None => false
  end.

(** ** Store calls used by the handlers *)

(** The row selected by [where: { id: profileId }]. *)
Definition profile_where_id (profileId : string) (st : Store)
  : option Profile.t :=
  find (fun p => key_matches profileId (Profile.id p)) (profiles st).

(** [Profile.findOne({ where: { id: profileId } })] *)
Definition Profile_findOne (profileId : string) : Async (option Profile.t) :=
  query (profile_where_id profileId).

(** The job with primary key [jobId], joined with its contract ([null]
    when no contract row has the job's [ContractId]). *)
Definition job_with_contract (jobId : string) (st : Store)
  : option (Job.t * option Contract.t) :=
  match find (fun j => key_matches jobId (Job.id j)) (jobs st) with
  | None => None
  | Some j =>
    Some (j, find (fun c => Contract.id c =? Job.ContractId j) (contracts st))
  end.

(** [Job.findByPk(jobId, { include: ['Contract'] })] *)
Definition Job_findByPk (jobId : string)
  : Async (option (Job.t * option Contract.t)) :=
  query (job_with_contract jobId).

(** [Profile.update({ balance: Sequelize.literal(...) }, { where: { id } })] *)
Definition update_balance (set : Qc -> Qc) (pid : Z) (ps : list Profile.t)
  : list Profile.t :=
  map (fun p => if Profile.id p =? pid
                then Profile.with_balance (set (Profile.balance p)) p
                else p) ps.

Definition Profile_update (set : Qc -> Qc) (pid : Z) : Async unit :=
  exec (fun st =>
    mkStore (update_balance set pid (profiles st)) (contracts st) (jobs st)).

(** [job.update({ paid: true, paymentDate: new Date() })] *)
Definition update_paid (now : Z) (jid : Z) (js : list Job.t) : list Job.t :=
  map (fun j => if Job.id j =? jid then Job.mark_paid now j else j) js.

Definition Job_update (job : Job.t) (now : Z) : Async unit :=
  exec (fun st =>
    mkStore (profiles st) (contracts st) (update_paid now (Job.id job) (jobs st))).

(** The rows selected by
    [where: { paid: null, '$Contract.ClientId$': id, '$Contract.status$': 'in_progress' }]
    with [include: Contract]. *)
Definition job_to_pay (st : Store) (clientId : Z) (j : Job.t) : bool :=
  match Job.paid j with
  | None =>
    match find (fun c => Contract.id c =? Job.ContractId j) (contracts st) with
    | Some c => (Contract.ClientId c =? clientId)
                && ContractStatus_eqb (Contract.status c) in_progress
    | None => false
    end
  | Some _ => false
  end.

Fixpoint sum_price (js : list Job.t) : Qc :=
  match js with
  | [] => 0%Qc
  | j :: js' => (Job.price j + sum_price js')%Qc
  end.

Definition jobs_to_pay_total (st : Store) (clientId : Z) : Qc :=
  sum_price (filter (job_to_pay st clientId) (jobs st)).

(** [Job.sum('price', { where: ..., include: ... })]; the sum over no row
    is taken to be 0, as [null * 0.25] is. *)
Definition Job_sum_price (clientId : Z) : Async Qc :=
  query (fun st => jobs_to_pay_total st clientId).

(** ** [getProfile] *)

Definition getProfile (profile_id : option string) (w : World)
  : Guard * World :=
  match profile_id with
  | None | Some EmptyString =>
    (Respond (json 400 (error "Profile ID is missing in the request header")), w)
  | Some profileId =>
    try_catch
      (profile <- Profile_findOne profileId ;;
       match profile with
       | None => ret (Respond (json 404 (error "Profile not found")))
       | Some p => ret (Next p)
       end)
      (Respond (json 500 (error "Internal server error"))) w
  end.

(** ** [POST /jobs/:job_id/pay] *)

Definition pay_handler (profile : Profile.t) (job_id : string) (now : Z)
  : World -> Response * World :=
  try_catch
    (job <- Job_findByPk job_id ;;
     match job with
     | None => ret (json 404 (error "Job not found"))
     | Some (j, contract) =>
       c <- match contract with Some c => ret c | None => throw end ;;
       if negb (Contract.ClientId c =? Profile.id profile) then
         ret (json 403 (error "Unauthorized: Only clients can pay for jobs"))
       else if Qcltb (Profile.balance profile) (Job.price j) then
         ret (json 400 (error "Insufficient balance"))
       else
         Profile_update (fun b => b - Job.price j)%Qc (Profile.id profile) ;;;
         Profile_update (fun b => b + Job.price j)%Qc (Contract.ContractorId c) ;;;
         Job_update j now ;;;
         ret (json 200 (message "Payment successful"))
     end)
    (json 500 (error "Internal server error")).

Definition post_pay (profile_id : option string) (job_id : string) (now : Z)
  (w : World) : Response * World :=
  match getProfile profile_id w with
  | (Respond r, w') => (r, w')
  | (Next profile, w') => pay_handler profile job_id now w'
  end.

(** ** [POST /balances/deposit/:userId] *)

Definition quarter : Qc := Q2Qc (1 # 4).

Definition is_user (profile : Profile.t) (userId : string) : bool :=
  match parseInt userId with
  | Some n => Profile.id profile =? n
  | None => false
  end.

Definition deposit_handler (profile : Profile.t) (userId : string)
  (amount : Qc) : World -> Response * World :=
  try_catch
    (if negb (is_user profile userId)
        || negb (ProfileType_eqb (Profile.type profile) client) then
       ret (json 403 (error "Unauthorized: Access denied"))
     else
       totalJobsToPay <- Job_sum_price (Profile.id profile) ;;
       let maxDepositAmount := (totalJobsToPay * quarter)%Qc in
       let depositAmount := amount in
       if Qcgtb depositAmount maxDepositAmount then
         ret (json 400 (error "Deposit amount exceeds maximum allowed"))
       else
         Profile_update (fun b => b + depositAmount)%Qc (Profile.id profile) ;;;
         ret (json 200 (message "Deposit successful")))
    (json 500 (error "Internal server error")).

Definition post_deposit (profile_id : option string) (userId : string)
  (amount : Qc) (w : World) : Response * World :=
  match getProfile profile_id w with
  | (Respond r, w') => (r, w')
  | (Next profile, w') => deposit_handler profile userId amount w'
  end.

End Handlers.

(** ** Vocabulary of the properties *)

(** Modelled from the spec: the constraints of the data model, which the
    missing model declarations would carry.  Profile ids are unique, and
    a contract binds two existing profiles, its client and its
    contractor; that the two are distinct is assumed on top of it by the
    statements that use this predicate, no handler checks it. *)
Definition well_formed (st : Store) : Prop :=
  NoDup (profile_ids st) /\
  forall c, In c (contracts st) ->
    Contract.ClientId c <> Contract.ContractorId c /\
    In (Contract.ClientId c) (profile_ids st) /\
    In (Contract.ContractorId c) (profile_ids st).

(** The sum of the balances of two profiles, when both exist. *)
Definition both_balances (st : Store) (a b : Z) : option Qc :=
  match balance_of st a, balance_of st b with
  | Some x, Some y => Some (x + y)%Qc
  | _, _ => None
  end.

(** The response of every [catch] block. *)
Definition internal_error : Response :=
  json 500 (error "Internal server error").

(** [!profileId]: no header, or an empty one. *)
Definition absent (profile_id : option string) : Prop :=
  profile_id = None \/ profile_id = Some "".

(** The three stores a payment goes through. *)
Definition debited (payer : Profile.t) (j : Job.t) (st : Store) : Store :=
  mkStore (update_balance (fun b => b - Job.price j)%Qc (Profile.id payer)
             (profiles st))
          (contracts st) (jobs st).

Definition credited (c : Contract.t) (j : Job.t) (st : Store) : Store :=
  mkStore (update_balance (fun b => b + Job.price j)%Qc (Contract.ContractorId c)
             (profiles st))
          (contracts st) (jobs st).

Definition marked (j : Job.t) (now : Z) (st : Store) : Store :=
  mkStore (profiles st) (contracts st) (update_paid now (Job.id j) (jobs st)).

Definition paid_store (payer : Profile.t) (j : Job.t) (c : Contract.t)
  (now : Z) (st : Store) : Store :=
  marked j now (credited c j (debited payer j st)).

(** The outstanding total in the words of the deposit rule of the
    specification, to be compared with [jobs_to_pay_total]: over the jobs
    of the client's [in_progress] contracts whose [paid] is not [true]. *)
Definition not_paid (st : Store) (clientId : Z) (j : Job.t) : bool :=
  match Job.paid j with
  | Some true => false
  | _ =>
    match find (fun c => Contract.id c =? Job.ContractId j) (contracts st) with
    | Some c => (Contract.ClientId c =? clientId)
                && ContractStatus_eqb (Contract.status c) in_progress
    | None => false
    end
  end.

Definition outstanding_not_paid (st : Store) (clientId : Z) : Qc :=
  sum_price (filter (not_paid st clientId) (jobs st)).

(** ** The read-only endpoints *)

(** What a [GET] handler sends: an error response, or [res.json(data)]. *)
Inductive Answer (A : Type) : Type := Failure (r : Response) | Payload (a : A).
Arguments Failure {A} r.
Arguments Payload {A} a.

Section Listings.

Variable key_of_text : string -> option Z.

(** [app.get(path, getProfile, handler)]: the handler runs when the guard
    calls [next()]. *)
Definition guarded {A} (handler : Profile.t -> World -> Answer A * World)
  (profile_id : option string) (w : World) : Answer A * World :=
  match getProfile key_of_text profile_id w with
  | (Respond r, w') => (Failure r, w')
  | (Next profile, w') => handler profile w'
  end.

(** The row selected by [Contract.findOne({ where: { id } })]. *)
Definition contract_where_id (id : string) (st : Store) : option Contract.t :=
  find (fun c => key_matches key_of_text id (Contract.id c)) (contracts st).

(** [GET /contracts/:id] *)
Definition contract_handler (id : string) (profile : Profile.t)
  : World -> Answer Contract.t * World :=
  try_catch
    (contract <- query (contract_where_id id) ;;
     match contract with
     | None => ret (Failure (json 404 (error "Contract not found")))
     | Some c =>
       if negb (Contract.ClientId c =? Profile.id profile)
          && negb (Contract.ContractorId c =? Profile.id profile) then
         ret (Failure (json 403 (error
           "Unauthorized: Contract does not belong to the requesting profile")))
       else ret (Payload c)
     end)
    (Failure internal_error).

Definition get_contract (profile_id : option string) (id : string)
  : World -> Answer Contract.t * World :=
  guarded (contract_handler id) profile_id.

(** The rows selected by
    [where: { [Op.or]: [{ ClientId: id }, { ContractorId: id }],
              status: { [Op.ne]: 'terminated' } }]. *)
Definition contract_listed (pid : Z) (c : Contract.t) : bool :=
  ((Contract.ClientId c =? pid) || (Contract.ContractorId c =? pid))
  && negb (ContractStatus_eqb (Contract.status c) terminated).

Definition contracts_of (pid : Z) (st : Store) : list Contract.t :=
  filter (contract_listed pid) (contracts st).

(** [GET /contracts]; [!profile.id] holds of the id 0. *)
Definition contracts_handler (profile : Profile.t)
  : World -> Answer (list Contract.t) * World :=
  try_catch
    (if Profile.id profile =? 0 then
       ret (Failure (json 400 (error "Profile ID is missing or invalid")))
     else
       contracts <- query (contracts_of (Profile.id profile)) ;;
       ret (Payload contracts))
    (Failure internal_error).

Definition get_contracts : option string
  -> World -> Answer (list Contract.t) * World :=
  guarded contracts_handler.

(** The join of [GET /jobs/unpaid]: a job with [paid: null] and its
    contract, when the contract is [in_progress] and the profile is its
    client or its contractor. *)
Definition unpaid_row (st : Store) (pid : Z) (j : Job.t)
  : list (Job.t * Contract.t) :=
  match Job.paid j with
  | None =>
    match find (fun c => Contract.id c =? Job.ContractId j) (contracts st) with
    | Some c =>
      if ContractStatus_eqb (Contract.status c) in_progress
         && ((Contract.ClientId c =? pid) || (Contract.ContractorId c =? pid))
      then [(j, c)] else []
    | None => []
    end
  | Some _ => []
  end.

Definition unpaid_jobs (pid : Z) (st : Store) : list (Job.t * Contract.t) :=
  flat_map (unpaid_row st pid) (jobs st).

(** [GET /jobs/unpaid] *)
Definition unpaid_handler (profile : Profile.t)
  : World -> Answer (list (Job.t * Contract.t)) * World :=
  try_catch
    (unpaidJobs <- query (unpaid_jobs (Profile.id profile)) ;;
     ret (Payload unpaidJobs))
    (Failure internal_error).

Definition get_unpaid : option string
  -> World -> Answer (list (Job.t * Contract.t)) * World :=
  guarded unpaid_handler.

End Listings.



(** ** The handlers over the arithmetic of the store *)

(** The amounts of the store and of JavaScript are binary floating-point
    numbers: every operation ([balance - price], [balance + price],
    [total * 0.25], [balance + amount]) yields the exact result rounded,
    and the [SUM] aggregate is computed by the store.  The handlers of
    this module take that rounding and that aggregate as parameters; the
    comparisons [<] and [>] are exact.  With no rounding and the exact
    sum they are the handlers above. *)
Module Rounded.
Section Arithmetic.

Variable round : Qc -> Qc.
Variable SUM : list Qc -> Qc.
Variable key_of_text : string -> option Z.
Variable parseInt : string -> option Z.

(** [POST /jobs/:job_id/pay] *)
Definition pay_handler (profile : Profile.t) (job_id : string) (now : Z)
  : World -> Response * World :=
  try_catch
    (job <- Job_findByPk key_of_text job_id ;;
     match job with
     | None => ret (json 404 (error "Job not found"))
     | Some (j, contract) =>
       c <- match contract with Some c => ret c | None => throw end ;;
       if negb (Contract.ClientId c =? Profile.id profile) then
         ret (json 403 (error "Unauthorized: Only clients can pay for jobs"))
       else if Qcltb (Profile.balance profile) (Job.price j) then
         ret (json 400 (error "Insufficient balance"))
       else
         Profile_update (fun b => round (b - Job.price j))%Qc
                        (Profile.id profile) ;;;
         Profile_update (fun b => round (b + Job.price j))%Qc
                        (Contract.ContractorId c) ;;;
         Job_update j now ;;;
         ret (json 200 (message "Payment successful"))
     end)
    (json 500 (error "Internal server error")).

Definition post_pay (profile_id : option string) (job_id : string) (now : Z)
  (w : World) : Response * World :=
  match getProfile key_of_text profile_id w with
  | (Respond r, w') => (r, w')
  | (Next profile, w') => pay_handler profile job_id now w'
  end.

(** The prices [Job.sum] adds up, in row order. *)
Definition prices_to_pay (st : Store) (clientId : Z) : list Qc :=
  map Job.price (filter (job_to_pay st clientId) (jobs st)).

(** [Job.sum('price', { where: ..., include: ... })] *)
Definition Job_sum_price (clientId : Z) : Async Qc :=
  query (fun st => SUM (prices_to_pay st clientId)).

(** [POST /balances/deposit/:userId], the body carrying a number. *)
Definition deposit_handler (profile : Profile.t) (userId : string)
  (amount : Qc) : World -> Response * World :=
  try_catch
    (if negb (is_user parseInt profile userId)
        || negb (ProfileType_eqb (Profile.type profile) client) then
       ret (json 403 (error "Unauthorized: Access denied"))
     else
       totalJobsToPay <- Job_sum_price (Profile.id profile) ;;
       let maxDepositAmount := round (totalJobsToPay * quarter)%Qc in
       let depositAmount := amount in
       if Qcgtb depositAmount maxDepositAmount then
         ret (json 400 (error "Deposit amount exceeds maximum allowed"))
       else
         Profile_update (fun b => round (b + depositAmount))%Qc
                        (Profile.id profile) ;;;
         ret (json 200 (message "Deposit successful")))
    (json 500 (error "Internal server error")).

Definition post_deposit (profile_id : option string) (userId : string)
  (amount : Qc) (w : World) : Response * World :=
  match getProfile key_of_text profile_id w with
  | (Respond r, w') => (r, w')
  | (Next profile, w') => deposit_handler profile userId amount w'
  end.

(** The stores a payment goes through. *)
Definition debited (payer : Profile.t) (j : Job.t) (st : Store) : Store :=
  mkStore (update_balance (fun b => round (b - Job.price j))%Qc
             (Profile.id payer) (profiles st))
          (contracts st) (jobs st).

Definition credited (c : Contract.t) (j : Job.t) (st : Store) : Store :=
  mkStore (update_balance (fun b => round (b + Job.price j))%Qc
             (Contract.ContractorId c) (profiles st))
          (contracts st) (jobs st).

Definition paid_store (payer : Profile.t) (j : Job.t) (c : Contract.t)
  (now : Z) (st : Store) : Store :=
  marked j now (credited c j (debited payer j st)).

End Arithmetic.
End Rounded.

(** The exact sum of a list of amounts. *)
Definition exact_sum (l : list Qc) : Qc := fold_right Qcplus 0%Qc l.

(** *** Binary64 *)

(** [n / d] to the nearest integer, ties to the even one ([0 <= n],
    [0 < d]). *)
Definition nearest_even (n d : Z) : Z :=
  let q := n / d in
  match (2 * (n mod d) ?= d) with
  | Lt => q
  | Gt => q + 1
  | Eq => if Z.even q then q else q + 1
  end.

(** [n / (d * 2^e)] as a fraction of integers. *)
Definition scaled (n d e : Z) : Z * Z :=
  if 0 <=? e then (n, d * 2 ^ e) else (n * 2 ^ (- e), d).

(** The exponent of the last place of [n / d] in binary64: the [e] with
    [2^52 <= n / d / 2^e < 2^53], and -1074 for the subnormal numbers. *)
Definition binary64_exponent (n d : Z) : Z :=
  let e0 := Z.log2 n - Z.log2 d - 52 in
  let (a, b) := scaled n d e0 in
  Z.max (if a / b <? 2 ^ 52 then e0 - 1 else e0) (-1074).

Definition two_to (e : Z) : Q :=
  if 0 <=? e then inject_Z (2 ^ e) else 1 # Z.to_pos (2 ^ (- e)).

(** Rounding to the nearest binary64 number, ties to even, below the
    overflow threshold. *)
Definition round64_Q (q : Q) : Q :=
  match Qnum q with
  | Z0 => 0 # 1
  | _ =>
    let n := Z.abs (Qnum q) in
    let d := Zpos (Qden q) in
    let e := binary64_exponent n d in
    let (a, b) := scaled n d e in
    Qmult (inject_Z (Z.sgn (Qnum q) * nearest_even a b)) (two_to e)
  end.

Definition round64 (q : Qc) : Qc := Q2Qc (round64_Q q).

(** A sum accumulated in binary64, in row order. *)
Definition sum64 (l : list Qc) : Qc :=
  fold_left (fun acc x => round64 (acc + x)%Qc) l 0%Qc.

(** The binary64 number a decimal literal [n / d] denotes. *)
Definition dec (n d : Z) : Qc := round64 (Q2Qc (n # Z.to_pos d)).

(** The value of a machine float, and the machine float [n / d]. *)
Definition Q_of_float (f : float) : option Q :=
  match Prim2SF f with
  | S754_zero _ => Some (0 # 1)
  | S754_finite s m e =>
    Some (Qmult (inject_Z (if s then Z.neg m else Z.pos m)) (two_to e))
  | _ => None
  end.

Definition flt (n d : Z) : float :=
  PrimFloat.div (of_uint63 (Uint63.of_Z n)) (of_uint63 (Uint63.of_Z d)).

(** [Some q] is the value of the machine float [f]. *)
Definition is_float (q : Qc) (f : float) : bool :=
  match Q_of_float f with
  | Some q' => Qeq_bool q q'
  | None => false
  end.

(** The oracle of a payment whose debit is made and whose credit or
    marking then rejects. *)
Definition later_write_rejects (fs : list bool) : Prop :=
  nth 0 fs false = false /\ nth 1 fs false = false /\
  nth 2 fs false = false /\
  (nth 3 fs false = true \/ nth 4 fs false = true).

(** ** A concrete instance, used to run the handlers *)

(** Decimal digits read as a natural number; any other text is no key. *)
Definition decimal_text (s : string) : option Z :=
  match NilEmpty.uint_of_string s with
  | Some u => Some (Z.of_N (N.of_uint u))
  | None => None
  end.

Definition money (n : Z) : Qc := Q2Qc (inject_Z n).

Definition alice : Profile.t :=
  Profile.mk 1 client (money 100) "Alice" "Ames" "buyer".
Definition bob : Profile.t :=
  Profile.mk 2 contractor (money 0) "Bob" "Burns" "plumber".
Definition carol : Profile.t :=
  Profile.mk 3 client (money 5) "Carol" "Cole" "buyer".

Definition sample (s : ContractStatus) (paid : option bool) : Store :=
  mkStore [alice; bob; carol]
          [Contract.mk 10 1 2 s; Contract.mk 11 3 2 in_progress]
          [Job.mk 20 10 (money 10) paid None; Job.mk 21 11 (money 10) None None].

Definition run_pay := post_pay decimal_text.
Definition run_deposit := post_deposit decimal_text decimal_text.

(** A balance read as a plain fraction. *)
Definition amount_of (st : Store) (pid : Z) : option Q :=
  option_map this (balance_of st pid).

Definition paid_of (st : Store) (jid : Z) : option (option bool) :=
  option_map Job.paid (job_by_id jid (jobs st)).


(** The handlers in binary64, with the sum accumulated in row order. *)
Definition run_pay64 := Rounded.post_pay round64 decimal_text.
Definition run_deposit64 :=
  Rounded.post_deposit round64 sum64 decimal_text decimal_text.

(** Client 1 holds 0.11, contractor 2 holds 0.30, job 20 costs 0.10. *)
Definition dana : Profile.t :=
  Profile.mk 1 client (dec 11 100) "Dana" "Dole" "buyer".
Definition eli : Profile.t :=
  Profile.mk 2 contractor (dec 30 100) "Eli" "Eads" "painter".

Definition cents : Store :=
  mkStore [dana; eli] [Contract.mk 10 1 2 in_progress]
          [Job.mk 20 10 (dec 10 100) None None].

(** Profile 1 is client and contractor of contract 10. *)
Definition own_contract : Store :=
  mkStore [alice; bob] [Contract.mk 10 1 1 in_progress]
          [Job.mk 20 10 (money 10) None None].

(** Client 1 has two jobs to pay, of prices 0.1 and 0.7. *)
Definition tenths : Store :=
  mkStore [alice; bob] [Contract.mk 10 1 2 in_progress]
          [Job.mk 20 10 (dec 1 10) None None;
           Job.mk 21 10 (dec 7 10) None None].


(** ** Store calls, step by step *)

Lemma call_run {A} (f : Store -> A * Store) st fs :
  call f (mkWorld st fs) =
  if nth 0 fs false then (Rejected, mkWorld st (tl fs))
  else (Resolved (fst (f st)), mkWorld (snd (f st)) (tl fs)).
Proof.
  unfold call; cbn [faults store].
  destruct fs as [|[|] fs]; cbn; try reflexivity; now destruct (f st).
Qed.

Lemma query_run {A} (f : Store -> A) st fs :
  query f (mkWorld st fs) =
  if nth 0 fs false then (Rejected, mkWorld st (tl fs))
  else (Resolved (f st), mkWorld st (tl fs)).
Proof. unfold query; now rewrite call_run. Qed.

Lemma exec_run (f : Store -> Store) st fs :
  exec f (mkWorld st fs) =
  if nth 0 fs false then (Rejected, mkWorld st (tl fs))
  else (Resolved tt, mkWorld (f st) (tl fs)).
Proof. unfold exec; now rewrite call_run. Qed.

Lemma nth_tl (i : nat) (fs : list bool) :
  nth i (tl fs) false = nth (S i) fs false.
Proof. destruct fs; [now destruct i | reflexivity]. Qed.

(** ** Rows and their updates *)

Lemma find_pointwise {A} (f g : A -> bool) (l : list A) :
  (forall x, f x = g x) -> find f l = find g l.
Proof.
  intros E; induction l as [|x l IH]; cbn; [reflexivity|].
  now rewrite E, IH.
Qed.

Lemma update_balance_ids set pid ps :
  map Profile.id (update_balance set pid ps) = map Profile.id ps.
Proof.
  unfold update_balance; rewrite map_map; apply map_ext.
  intros p; now destruct (Profile.id p =? pid).
Qed.

Lemma profile_by_id_update_same set pid ps :
  profile_by_id pid (update_balance set pid ps) =
  option_map (fun p => Profile.with_balance (set (Profile.balance p)) p)
             (profile_by_id pid ps).
Proof.
  induction ps as [|p ps IH]; cbn; [reflexivity|].
  destruct (Profile.id p =? pid) eqn:E; cbn; rewrite E; [reflexivity|exact IH].
Qed.

Lemma profile_by_id_update_other set pid pid' ps :
  pid <> pid' ->
  profile_by_id pid (update_balance set pid' ps) = profile_by_id pid ps.
Proof.
  intros N; induction ps as [|p ps IH]; cbn; [reflexivity|].
  destruct (Profile.id p =? pid') eqn:E'; cbn.
  - apply Z.eqb_eq in E'.
    destruct (Profile.id p =? pid) eqn:E; [apply Z.eqb_eq in E; congruence|].
    exact IH.
  - destruct (Profile.id p =? pid); [reflexivity|exact IH].
Qed.

Lemma profile_by_id_found pid ps :
  In pid (map Profile.id ps) -> exists p, profile_by_id pid ps = Some p.
Proof.
  intros I; destruct (profile_by_id pid ps) as [p|] eqn:E; [now exists p|].
  apply in_map_iff in I as (q & Q & I).
  apply (find_none _ _ E) in I; cbn in I.
  apply Z.eqb_neq in I; contradiction.
Qed.

Lemma update_balance_absent set pid ps :
  ~ In pid (map Profile.id ps) -> update_balance set pid ps = ps.
Proof.
  induction ps as [|p ps IH]; cbn; [reflexivity|]; intros N.
  destruct (Profile.id p =? pid) eqn:E.
  - apply Z.eqb_eq in E; tauto.
  - f_equal; apply IH; tauto.
Qed.

(** On a table with unique ids the update moves the total by what it adds
    to the one row it selects. *)
Lemma sum_balances_update set pid ps p :
  NoDup (map Profile.id ps) ->
  profile_by_id pid ps = Some p ->
  sum_balances (update_balance set pid ps) =
  (sum_balances ps - Profile.balance p + set (Profile.balance p))%Qc.
Proof.
  induction ps as [|q ps IH]; cbn; [discriminate|].
  intros D F; inversion D as [|x l N D']; subst.
  destruct (Profile.id q =? pid) eqn:E.
  - injection F as ->. apply Z.eqb_eq in E; subst pid.
    fold (update_balance set (Profile.id p) ps).
    rewrite update_balance_absent by assumption; cbn. ring.
  - fold (update_balance set pid ps). rewrite (IH D' F). ring.
Qed.

Lemma Forall2_map_same {A} (R : A -> A -> Prop) (f : A -> A) (l : list A) :
  (forall x, In x l -> R x (f x)) -> Forall2 R l (map f l).
Proof.
  induction l as [|x l IH]; cbn; intros H; constructor.
  - apply H; now left.
  - apply IH; intros y I; apply H; now right.
Qed.

(** JavaScript comparisons against the order of the rationals. *)
Lemma Qcltb_true a b : Qcltb a b = true <-> (a < b)%Qc.
Proof.
  unfold Qcltb; rewrite Qclt_alt.
  destruct (a ?= b)%Qc; split; congruence.
Qed.

Lemma Qcltb_false a b : Qcltb a b = false <-> (b <= a)%Qc.
Proof.
  split; intros H.
  - apply Qcnot_lt_le; intros L; apply Qcltb_true in L; congruence.
  - destruct (Qcltb a b) eqn:E; [|reflexivity].
    apply Qcltb_true in E; now apply Qclt_not_le in E.
Qed.

Lemma Qcgtb_true a b : Qcgtb a b = true <-> (b < a)%Qc.
Proof.
  unfold Qcgtb. change (b < a)%Qc with (a > b)%Qc. rewrite Qcgt_alt.
  destruct (a ?= b)%Qc; split; congruence.
Qed.

Lemma Qcgtb_false a b : Qcgtb a b = false <-> (a <= b)%Qc.
Proof.
  split; intros H.
  - apply Qcnot_lt_le; intros L; apply Qcgtb_true in L; congruence.
  - destruct (Qcgtb a b) eqn:E; [|reflexivity].
    apply Qcgtb_true in E; now apply Qclt_not_le in E.
Qed.

(** Where no job carries [paid = false] the total the handler computes
    is the outstanding total of the deposit rule. *)
Lemma jobs_to_pay_total_not_paid st clientId :
  (forall j, In j (jobs st) -> Job.paid j <> Some false) ->
  jobs_to_pay_total st clientId = outstanding_not_paid st clientId.
Proof.
  intros H; unfold jobs_to_pay_total, outstanding_not_paid; f_equal.
  apply filter_ext_in; intros j I.
  unfold job_to_pay, not_paid.
  destruct (Job.paid j) as [[|]|] eqn:E; try reflexivity.
  now destruct (H j I).
Qed.

Lemma jobs_to_pay_total_none st clientId :
  (forall j, In j (jobs st) -> job_to_pay st clientId j = false) ->
  jobs_to_pay_total st clientId = 0%Qc.
Proof.
  intros H; unfold jobs_to_pay_total.
  induction (jobs st) as [|j js IH]; cbn; [reflexivity|].
  rewrite (H j) by now left.
  apply IH; intros x I; apply H; now right.
Qed.

Section Runs.

Variable key_of_text : string -> option Z.
Variable parseInt : string -> option Z.

(** [getProfile] on a header that is present: one read, then 404 or [next]. *)
Lemma getProfile_run a text st fs :
  getProfile key_of_text (Some (String a text)) (mkWorld st fs) =
  if nth 0 fs false then (Respond internal_error, mkWorld st (tl fs))
  else (match profile_where_id key_of_text (String a text) st with
        | None => Respond (json 404 (error "Profile not found"))
        | Some p => Next p
        end, mkWorld st (tl fs)).
Proof.
  unfold getProfile, try_catch, bind, Profile_findOne.
  rewrite query_run.
  destruct (nth 0 fs false); [reflexivity|].
  now destruct (profile_where_id key_of_text (String a text) st).
Qed.

(** The payment handler as a decision tree over the store and the
    outcomes of its four store calls. *)
Lemma pay_handler_run payer job_id now st fs :
  pay_handler key_of_text payer job_id now (mkWorld st fs) =
  if nth 0 fs false then (internal_error, mkWorld st (tl fs)) else
  match job_with_contract key_of_text job_id st with
  | None => (json 404 (error "Job not found"), mkWorld st (tl fs))
  | Some (j, None) => (internal_error, mkWorld st (tl fs))
  | Some (j, Some c) =>
    if negb (Contract.ClientId c =? Profile.id payer) then
      (json 403 (error "Unauthorized: Only clients can pay for jobs"),
       mkWorld st (tl fs))
    else if Qcltb (Profile.balance payer) (Job.price j) then
      (json 400 (error "Insufficient balance"), mkWorld st (tl fs))
    else if nth 1 fs false then
      (internal_error, mkWorld st (tl (tl fs)))
    else if nth 2 fs false then
      (internal_error, mkWorld (debited payer j st) (tl (tl (tl fs))))
    else if nth 3 fs false then
      (internal_error,
       mkWorld (credited c j (debited payer j st)) (tl (tl (tl (tl fs)))))
    else
      (json 200 (message "Payment successful"),
       mkWorld (paid_store payer j c now st) (tl (tl (tl (tl fs)))))
  end.
Proof.
  unfold pay_handler, try_catch, bind, Job_findByPk.
  rewrite query_run.
  destruct (nth 0 fs false); [reflexivity|].
  destruct (job_with_contract key_of_text job_id st) as [[j [c|]]|];
    try reflexivity.
  unfold ret at 1.
  destruct (negb (Contract.ClientId c =? Profile.id payer)); [reflexivity|].
  destruct (Qcltb (Profile.balance payer) (Job.price j)); [reflexivity|].
  unfold Profile_update, Job_update.
  rewrite exec_run, nth_tl.
  destruct (nth 1 fs false); [reflexivity|].
  rewrite exec_run, !nth_tl.
  destruct (nth 2 fs false); [reflexivity|].
  rewrite exec_run, !nth_tl.
  destruct (nth 3 fs false); reflexivity.
Qed.

(** The deposit handler as a decision tree. *)
Lemma deposit_handler_run payer userId amount st fs :
  deposit_handler parseInt payer userId amount (mkWorld st fs) =
  if negb (is_user parseInt payer userId)
     || negb (ProfileType_eqb (Profile.type payer) client) then
    (json 403 (error "Unauthorized: Access denied"), mkWorld st fs)
  else if nth 0 fs false then (internal_error, mkWorld st (tl fs))
  else if Qcgtb amount (jobs_to_pay_total st (Profile.id payer) * quarter)%Qc then
    (json 400 (error "Deposit amount exceeds maximum allowed"),
     mkWorld st (tl fs))
  else if nth 1 fs false then (internal_error, mkWorld st (tl (tl fs)))
  else
    (json 200 (message "Deposit successful"),
     mkWorld (mkStore (update_balance (fun b => b + amount)%Qc (Profile.id payer)
                         (profiles st))
                      (contracts st) (jobs st))
             (tl (tl fs))).
Proof.
  unfold deposit_handler, try_catch.
  destruct (negb (is_user parseInt payer userId)
            || negb (ProfileType_eqb (Profile.type payer) client));
    [reflexivity|].
  unfold bind, Job_sum_price.
  rewrite query_run.
  destruct (nth 0 fs false); [reflexivity|].
  destruct (Qcgtb amount _); [reflexivity|].
  unfold Profile_update.
  rewrite exec_run, nth_tl.
  destruct (nth 1 fs false); reflexivity.
Qed.

(** ** What a resolved caller and a successful payment tell *)

Lemma profile_where_id_found text st p :
  profile_where_id key_of_text text st = Some p ->
  In p (profiles st) /\ key_of_text text = Some (Profile.id p) /\
  profile_by_id (Profile.id p) (profiles st) = Some p.
Proof.
  unfold profile_where_id, key_matches; intros F.
  destruct (find_some _ _ F) as [I M].
  destruct (key_of_text text) as [k|] eqn:K; [|discriminate].
  apply Z.eqb_eq in M; subst k.
  repeat split; [assumption|].
  unfold profile_by_id; rewrite <- F.
  apply find_pointwise; intros q; unfold key_matches.
  apply Z.eqb_sym.
Qed.

Lemma job_with_contract_found job_id st j c :
  job_with_contract key_of_text job_id st = Some (j, Some c) ->
  In j (jobs st) /\ key_of_text job_id = Some (Job.id j) /\
  In c (contracts st) /\ Contract.id c = Job.ContractId j.
Proof.
  unfold job_with_contract; intros F.
  destruct (find _ (jobs st)) as [j'|] eqn:FJ; [|discriminate].
  injection F as -> FC.
  destruct (find_some _ _ FJ) as [IJ M].
  destruct (find_some _ _ FC) as [IC MC].
  unfold key_matches in M.
  destruct (key_of_text job_id) as [k|]; [|discriminate].
  apply Z.eqb_eq in M, MC; subst k.
  now repeat split.
Qed.

Lemma getProfile_next profile_id w payer :
  fst (getProfile key_of_text profile_id w) = Next payer ->
  exists text,
    profile_id = Some text /\ text <> "" /\
    nth 0 (faults w) false = false /\
    profile_where_id key_of_text text (store w) = Some payer /\
    getProfile key_of_text profile_id w =
      (Next payer, mkWorld (store w) (tl (faults w))).
Proof.
  destruct w as [st fs]; destruct profile_id as [[|a text]|];
    try (cbn; discriminate).
  rewrite getProfile_run; cbn [store faults].
  destruct (nth 0 fs false); [cbn; discriminate|].
  destruct (profile_where_id key_of_text (String a text) st) as [p|] eqn:F;
    cbn; [|discriminate].
  intros [= ->]; exists (String a text).
  repeat split; try assumption; discriminate.
Qed.

Lemma getProfile_store profile_id w :
  store (snd (getProfile key_of_text profile_id w)) = store w.
Proof.
  destruct w as [st fs]; destruct profile_id as [[|a text]|];
    try reflexivity.
  rewrite getProfile_run; now destruct (nth 0 fs false).
Qed.

(** A payment answered with 200 went through every check and every write. *)
Lemma post_pay_success profile_id job_id now w r w' :
  post_pay key_of_text profile_id job_id now w = (r, w') ->
  status r = 200 ->
  exists payer j c,
    fst (getProfile key_of_text profile_id w) = Next payer /\
    job_with_contract key_of_text job_id (store w) = Some (j, Some c) /\
    Contract.ClientId c = Profile.id payer /\
    (Job.price j <= Profile.balance payer)%Qc /\
    r = json 200 (message "Payment successful") /\
    store w' = paid_store payer j c now (store w).
Proof.
  destruct w as [st fs]; unfold post_pay.
  destruct profile_id as [[|a text]|];
    try (cbn; intros [= <- <-]; cbn; discriminate).
  rewrite getProfile_run; cbn [store].
  destruct (nth 0 fs false); [intros [= <- <-]; cbn; discriminate|].
  destruct (profile_where_id key_of_text (String a text) st) as [payer|];
    [|intros [= <- <-]; cbn; discriminate].
  rewrite pay_handler_run, !nth_tl.
  destruct (nth 1 fs false); [intros [= <- <-]; cbn; discriminate|].
  destruct (job_with_contract key_of_text job_id st) as [[j [c|]]|];
    try (intros [= <- <-]; cbn; discriminate).
  destruct (Contract.ClientId c =? Profile.id payer) eqn:EC; cbn [negb];
    [|intros [= <- <-]; cbn; discriminate].
  destruct (Qcltb (Profile.balance payer) (Job.price j)) eqn:EB;
    [intros [= <- <-]; cbn; discriminate|].
  destruct (nth 2 fs false); [intros [= <- <-]; cbn; discriminate|].
  destruct (nth 3 fs false); [intros [= <- <-]; cbn; discriminate|].
  destruct (nth 4 fs false); [intros [= <- <-]; cbn; discriminate|].
  intros [= <- <-] _.
  exists payer, j, c; cbn [fst store].
  apply Z.eqb_eq in EC; apply Qcltb_false in EB.
  now repeat split.
Qed.

(** ** Successful payments *)

Lemma paid_store_payer payer j c now st :
  Profile.id payer <> Contract.ContractorId c ->
  profile_by_id (Profile.id payer) (profiles st) = Some payer ->
  balance_of (paid_store payer j c now st) (Profile.id payer) =
  Some (Profile.balance payer - Job.price j)%Qc.
Proof.
  intros N F; unfold balance_of, paid_store; cbn [profiles marked credited debited].
  rewrite profile_by_id_update_other by assumption.
  now rewrite profile_by_id_update_same, F.
Qed.

Lemma paid_store_contractor payer j c now st q :
  Profile.id payer <> Contract.ContractorId c ->
  profile_by_id (Contract.ContractorId c) (profiles st) = Some q ->
  balance_of (paid_store payer j c now st) (Contract.ContractorId c) =
  Some (Profile.balance q + Job.price j)%Qc.
Proof.
  intros N F; unfold balance_of, paid_store; cbn [profiles marked credited debited].
  rewrite profile_by_id_update_same.
  rewrite profile_by_id_update_other by congruence.
  now rewrite F.
Qed.

(** C10. A successful payment writes nothing but the two balances and the
    [paid]/[paymentDate] columns of the paid job: the contracts table is
    the same, every profile keeps its id, type, names and profession and,
    unless it is the payer or the contractor, its balance; every job
    keeps its id, contract and price and, unless it is the paid job, all
    its columns. *)
Theorem payJob_frame profile_id job_id now w r w' :
  post_pay key_of_text profile_id job_id now w = (r, w') ->
  status r = 200 ->
  exists payer j c,
    fst (getProfile key_of_text profile_id w) = Next payer /\
    job_with_contract key_of_text job_id (store w) = Some (j, Some c) /\
    contracts (store w') = contracts (store w) /\
    Forall2 (fun p p' =>
               Profile.id p' = Profile.id p /\
               Profile.type p' = Profile.type p /\
               Profile.firstName p' = Profile.firstName p /\
               Profile.lastName p' = Profile.lastName p /\
               Profile.profession p' = Profile.profession p /\
               (Profile.id p <> Profile.id payer ->
                Profile.id p <> Contract.ContractorId c -> p' = p))
            (profiles (store w)) (profiles (store w')) /\
    Forall2 (fun x x' =>
               Job.id x' = Job.id x /\
               Job.ContractId x' = Job.ContractId x /\
               Job.price x' = Job.price x /\
               (Job.id x <> Job.id j -> x' = x) /\
               (Job.id x = Job.id j ->
                Job.paid x' = Some true /\ Job.paymentDate x' = Some now))
            (jobs (store w)) (jobs (store w')).
Proof.
  intros R OK.
  destruct (post_pay_success _ _ _ _ _ _ R OK)
    as (payer & j & c & G & FJ & _ & _ & _ & ->).
  exists payer, j, c.
  repeat split; try assumption.
  - unfold paid_store; cbn [profiles marked credited debited].
    unfold update_balance; rewrite map_map.
    apply Forall2_map_same; intros p _.
    destruct (Profile.id p =? Profile.id payer) eqn:E1; cbn [Profile.with_balance Profile.id];
      destruct (Profile.id p =? Contract.ContractorId c) eqn:E2; cbn;
      repeat split; try reflexivity; intros N1 N2;
      try (apply Z.eqb_eq in E1; contradiction);
      try (apply Z.eqb_eq in E2; contradiction).
  - unfold paid_store; cbn [jobs marked credited debited].
    unfold update_paid.
    apply Forall2_map_same; intros x _.
    destruct (Job.id x =? Job.id j) eqn:E; cbn;
      [apply Z.eqb_eq in E | apply Z.eqb_neq in E];
      repeat split; try reflexivity; try contradiction.
Qed.

(** ** Refused payments *)

Lemma post_pay_next profile_id job_id now w payer :
  fst (getProfile key_of_text profile_id w) = Next payer ->
  post_pay key_of_text profile_id job_id now w =
  pay_handler key_of_text payer job_id now (mkWorld (store w) (tl (faults w))).
Proof.
  intros G; destruct (getProfile_next _ _ _ G) as (_ & _ & _ & _ & _ & E).
  unfold post_pay; now rewrite E.
Qed.

(** C4. When the payer holds strictly less than the job's price the
    payment is answered 400 "Insufficient balance" and the store, hence
    every balance, is what it was. *)
Theorem payJob_insufficient_balance profile_id job_id now w payer j c :
  resolves 2 (faults w) ->
  fst (getProfile key_of_text profile_id w) = Next payer ->
  job_with_contract key_of_text job_id (store w) = Some (j, Some c) ->
  Contract.ClientId c = Profile.id payer ->
  (Profile.balance payer < Job.price j)%Qc ->
  fst (post_pay key_of_text profile_id job_id now w) =
    json 400 (error "Insufficient balance") /\
  store (snd (post_pay key_of_text profile_id job_id now w)) = store w /\
  (forall pid,
     balance_of (store (snd (post_pay key_of_text profile_id job_id now w))) pid
     = balance_of (store w) pid).
Proof.
  intros F G FJ EC LT.
  rewrite (post_pay_next _ _ _ _ _ G), pay_handler_run, nth_tl.
  rewrite (F 1%nat) by lia. rewrite FJ.
  apply Z.eqb_eq in EC; rewrite EC; cbn [negb].
  apply Qcltb_true in LT; rewrite LT.
  now repeat split.
Qed.

(** C5. A caller who is not the client of the job's contract, the
    contractor of that contract included, is answered 403 and the store
    is what it was. *)
Theorem payJob_unauthorized profile_id job_id now w payer j c :
  resolves 2 (faults w) ->
  fst (getProfile key_of_text profile_id w) = Next payer ->
  job_with_contract key_of_text job_id (store w) = Some (j, Some c) ->
  Profile.id payer <> Contract.ClientId c ->
  fst (post_pay key_of_text profile_id job_id now w) =
    json 403 (error "Unauthorized: Only clients can pay for jobs") /\
  store (snd (post_pay key_of_text profile_id job_id now w)) = store w.
Proof.
  intros F G FJ NE.
  rewrite (post_pay_next _ _ _ _ _ G), pay_handler_run, nth_tl.
  rewrite (F 1%nat) by lia. rewrite FJ.
  assert (E : (Contract.ClientId c =? Profile.id payer) = false)
    by (apply Z.eqb_neq; congruence).
  rewrite E; cbn [negb].
  now split.
Qed.

(** C8, as the code has it.  A payment that is not answered 200 leaves
    the store as it was, the two balances and the flag of the job
    included, unless the debit has been written and the credit or the
    marking of the job then rejects: every refusal (400, 403, 404) and
    every 500 raised by a rejected read, by a job without contract or by
    a rejected debit leaves the store unchanged. *)
Theorem payJob_refused_unchanged profile_id job_id now w r w' :
  post_pay key_of_text profile_id job_id now w = (r, w') ->
  status r <> 200 ->
  (status r = 500 -> ~ later_write_rejects (faults w)) ->
  store w' = store w.
Proof.
  destruct w as [st fs]; unfold post_pay; cbn [store faults].
  destruct profile_id as [[|a text]|]; try (cbn; now intros [= <- <-]).
  rewrite getProfile_run.
  destruct (nth 0 fs false) eqn:E0; [now intros [= <- <-]|].
  destruct (profile_where_id key_of_text (String a text) st) as [payer|];
    [|now intros [= <- <-]].
  rewrite pay_handler_run, !nth_tl.
  destruct (nth 1 fs false) eqn:E1; [now intros [= <- <-]|].
  destruct (job_with_contract key_of_text job_id st) as [[j [c|]]|];
    try (now intros [= <- <-]).
  destruct (negb (Contract.ClientId c =? Profile.id payer));
    [now intros [= <- <-]|].
  destruct (Qcltb (Profile.balance payer) (Job.price j));
    [now intros [= <- <-]|].
  destruct (nth 2 fs false) eqn:E2; [now intros [= <- <-]|].
  destruct (nth 3 fs false) eqn:E3.
  { intros [= <- <-] _ H. destruct (H eq_refl).
    unfold later_write_rejects; auto. }
  destruct (nth 4 fs false) eqn:E4.
  { intros [= <- <-] _ H. destruct (H eq_refl).
    unfold later_write_rejects; auto. }
  intros [= <- <-] N; cbn in N; congruence.
Qed.

(** ** The guard *)

(** C9. Without a [profile_id] header the guard answers 400; with a header
    that names no profile it answers 404; with a header that names one it
    hands that profile to the handler.  In every case, a rejected read
    included, the store is what it was. *)
Theorem getProfile_guard profile_id w :
  (absent profile_id ->
   getProfile key_of_text profile_id w =
     (Respond (json 400 (error "Profile ID is missing in the request header")),
      w)) /\
  (forall text,
     profile_id = Some text -> text <> "" -> resolves 1 (faults w) ->
     (forall p, In p (profiles (store w)) ->
                key_of_text text <> Some (Profile.id p)) ->
     fst (getProfile key_of_text profile_id w) =
       Respond (json 404 (error "Profile not found"))) /\
  (forall text q,
     profile_id = Some text -> text <> "" -> resolves 1 (faults w) ->
     In q (profiles (store w)) -> key_of_text text = Some (Profile.id q) ->
     exists p,
       In p (profiles (store w)) /\
       key_of_text text = Some (Profile.id p) /\
       fst (getProfile key_of_text profile_id w) = Next p) /\
  store (snd (getProfile key_of_text profile_id w)) = store w.
Proof.
  repeat split.
  - intros [-> | ->]; reflexivity.
  - intros text -> NE F NO.
    destruct w as [st fs], text as [|a text]; [contradiction|].
    pose proof (F 0%nat ltac:(lia)) as F0; cbn [faults] in F0.
    rewrite getProfile_run, F0.
    destruct (profile_where_id key_of_text (String a text) st) as [p|] eqn:E;
      [|reflexivity].
    apply profile_where_id_found in E as (I & K & _).
    now destruct (NO p I).
  - intros text q -> NE F I K.
    destruct w as [st fs], text as [|a text]; [contradiction|].
    pose proof (F 0%nat ltac:(lia)) as F0; cbn [faults] in F0.
    rewrite getProfile_run, F0.
    destruct (profile_where_id key_of_text (String a text) st) as [p|] eqn:E.
    + exists p; apply profile_where_id_found in E as (Ip & Kp & _).
      now repeat split.
    + unfold profile_where_id in E.
      apply (find_none _ _ E) in I. unfold key_matches in I.
      cbn [store] in K; rewrite K, Z.eqb_refl in I; discriminate.
  - apply getProfile_store.
Qed.

(** ** Deposits *)

Lemma post_deposit_next profile_id userId amount w payer :
  fst (getProfile key_of_text profile_id w) = Next payer ->
  post_deposit key_of_text parseInt profile_id userId amount w =
  deposit_handler parseInt payer userId amount
    (mkWorld (store w) (tl (faults w))).
Proof.
  intros G; destruct (getProfile_next _ _ _ G) as (_ & _ & _ & _ & _ & E).
  unfold post_deposit; now rewrite E.
Qed.

(** ** Payments and deposits the checks let through *)

Lemma find_map_stable {A} (f : A -> bool) (g : A -> A) (l : list A) :
  (forall x, f (g x) = f x) -> find f (map g l) = option_map g (find f l).
Proof.
  intros E; induction l as [|x l IH]; cbn; [reflexivity|].
  rewrite E; now destruct (f x).
Qed.

(** The job a second lookup finds after a payment is the job that was
    paid, now marked, with the same contract. *)
Lemma job_with_contract_paid_store job_id payer j c now st :
  job_with_contract key_of_text job_id st = Some (j, Some c) ->
  job_with_contract key_of_text job_id (paid_store payer j c now st) =
  Some (Job.mark_paid now j, Some c).
Proof.
  unfold job_with_contract, paid_store; cbn [jobs contracts marked credited debited].
  intros F.
  destruct (find _ (jobs st)) as [j0|] eqn:FJ; [|discriminate].
  injection F as -> FC.
  unfold update_paid; rewrite find_map_stable.
  - rewrite FJ; cbn [option_map]. rewrite Z.eqb_refl; cbn. now rewrite FC.
  - intros x; now destruct (Job.id x =? Job.id j).
Qed.

(** The payment handler never reads [paid]: a call that follows a
    successful payment of the same job by the same caller, and is itself
    answered 200, moves the price a second time. *)
Lemma payJob_second_call_pays_again profile_id job_id now now' w r1 w1 r2 w2 :
  well_formed (store w) ->
  post_pay key_of_text profile_id job_id now w = (r1, w1) ->
  status r1 = 200 ->
  post_pay key_of_text profile_id job_id now' w1 = (r2, w2) ->
  status r2 = 200 ->
  exists payer j c bc bk,
    fst (getProfile key_of_text profile_id w) = Next payer /\
    job_with_contract key_of_text job_id (store w) = Some (j, Some c) /\
    job_with_contract key_of_text job_id (store w1)
      = Some (Job.mark_paid now j, Some c) /\
    balance_of (store w) (Profile.id payer) = Some bc /\
    balance_of (store w) (Contract.ContractorId c) = Some bk /\
    balance_of (store w2) (Profile.id payer)
      = Some (bc - Job.price j - Job.price j)%Qc /\
    balance_of (store w2) (Contract.ContractorId c)
      = Some (bk + Job.price j + Job.price j)%Qc.
Proof.
  intros [D WF] R1 OK1 R2 OK2.
  destruct (post_pay_success _ _ _ _ _ _ R1 OK1)
    as (payer & j & c & G & FJ & EC & _ & _ & S1).
  destruct (post_pay_success _ _ _ _ _ _ R2 OK2)
    as (payer' & j' & c' & G' & FJ' & _ & _ & _ & S2).
  destruct (getProfile_next _ _ _ G) as (text & -> & _ & _ & FP & _).
  destruct (getProfile_next _ _ _ G') as (text' & [= <-] & _ & _ & FP' & _).
  apply profile_where_id_found in FP as (_ & K & FP).
  apply profile_where_id_found in FP' as (_ & K' & FP').
  assert (EP : Profile.id payer' = Profile.id payer) by congruence.
  destruct (job_with_contract_found _ _ _ _ FJ) as (_ & _ & IC & _).
  destruct (WF c IC) as (N & _ & IK); rewrite EC in N.
  destruct (profile_by_id_found _ _ IK) as [q FQ].
  rewrite S1 in FJ', FP'.
  rewrite (job_with_contract_paid_store _ payer _ _ now _ FJ) in FJ'.
  injection FJ' as <- <-.
  pose proof (paid_store_payer payer j c now (store w) N FP) as B1.
  pose proof (paid_store_contractor payer j c now (store w) q N FQ) as B2.
  rewrite EP in FP'.
  assert (BP : Profile.balance payer' = (Profile.balance payer - Job.price j)%Qc).
  { unfold balance_of in B1; rewrite FP' in B1; now injection B1. }
  unfold balance_of in B2.
  destruct (profile_by_id (Contract.ContractorId c)
              (profiles (paid_store payer j c now (store w)))) as [q'|] eqn:FQ';
    [|discriminate].
  injection B2 as BQ.
  exists payer, j, c, (Profile.balance payer), (Profile.balance q).
  rewrite S1. repeat split; try assumption.
  - now apply job_with_contract_paid_store.
  - unfold balance_of; now rewrite FP.
  - unfold balance_of; now rewrite FQ.
  - rewrite S2, <- EP.
    rewrite paid_store_payer;
      [now rewrite BP | congruence | now rewrite S1, EP].
  - rewrite S2.
    rewrite (paid_store_contractor _ _ _ _ _ q');
      [now rewrite BQ | congruence | now rewrite S1].
Qed.

(** The deposit handler bounds the amount from above only: an amount that
    is zero or negative passes the check whenever the total to pay is not
    negative, and is added to the balance. *)
Lemma deposit_nonpositive_accepted profile_id userId amount w payer :
  resolves 3 (faults w) ->
  fst (getProfile key_of_text profile_id w) = Next payer ->
  parseInt userId = Some (Profile.id payer) ->
  Profile.type payer = client ->
  (0 <= jobs_to_pay_total (store w) (Profile.id payer))%Qc ->
  (amount <= 0)%Qc ->
  let out := post_deposit key_of_text parseInt profile_id userId amount w in
  fst out = json 200 (message "Deposit successful") /\
  balance_of (store (snd out)) (Profile.id payer) =
    Some (Profile.balance payer + amount)%Qc.
Proof.
  intros F G U C T0 A0 out; subst out.
  rewrite (post_deposit_next _ _ _ _ _ G), deposit_handler_run, !nth_tl.
  unfold is_user; rewrite U, Z.eqb_refl, C; cbn [negb orb ProfileType_eqb].
  rewrite (F 1%nat), (F 2%nat) by lia.
  assert (E : Qcgtb amount
                (jobs_to_pay_total (store w) (Profile.id payer) * quarter)
              = false).
  { apply Qcgtb_false. apply Qcle_trans with 0%Qc; [assumption|].
    replace 0%Qc with (0 * quarter)%Qc by ring.
    apply Qcmult_le_compat_r; [assumption|].
    unfold Qcle, Qle; vm_compute; discriminate. }
  rewrite E; split; [reflexivity|].
  cbn [snd store]; unfold balance_of; cbn [profiles].
  rewrite profile_by_id_update_same.
  destruct (getProfile_next _ _ _ G) as (text & _ & _ & _ & FP & _).
  apply profile_where_id_found in FP as (_ & _ & ->).
  reflexivity.
Qed.

End Runs.

(** ** Runs on the concrete instance *)

Lemma resolves_nil n : resolves n [].
Proof. intros i _; now destruct i. Qed.


(** C2, on the code.  The client 1 (balance 100) pays job 20 (price 10,
    contractor 2) twice in a row: the second call finds the job marked
    paid, is answered 200 like the first and moves the price again, so
    that 20 has left the client and reached the contractor. *)
Theorem payJob_twice_pays_twice :
  let w0 := mkWorld (sample in_progress None) [] in
  let first := run_pay (Some "1") "20" 7 w0 in
  let second := run_pay (Some "1") "20" 8 (snd first) in
  fst first = json 200 (message "Payment successful") /\
  paid_of (store (snd first)) 20 = Some (Some true) /\
  amount_of (store (snd first)) 1 = Some (90 # 1) /\
  amount_of (store (snd first)) 2 = Some (10 # 1) /\
  fst second = json 200 (message "Payment successful") /\
  amount_of (store (snd second)) 1 = Some (80 # 1) /\
  amount_of (store (snd second)) 2 = Some (20 # 1).
Proof. vm_compute; repeat split. Qed.


(** C6, on the code: job 20 (price 10) of client 1 has [paid = false] on
    an [in_progress] contract, so that the outstanding total of the
    deposit rule is 10; the client's deposit of a quarter of it is
    answered 400 and the balance stays. *)
Lemma deposit_quarter_of_not_paid_refused :
  let w := mkWorld (sample in_progress (Some false)) [] in
  let T := outstanding_not_paid (store w) 1 in
  let out := run_deposit (Some "1") "1" (T * quarter)%Qc w in
  fst (getProfile decimal_text (Some "1") w) = Next alice /\
  decimal_text "1" = Some (Profile.id alice) /\
  Profile.type alice = client /\
  this T = 10 # 1 /\
  fst out = json 400 (error "Deposit amount exceeds maximum allowed") /\
  amount_of (store (snd out)) 1 = Some (100 # 1).
Proof. vm_compute; repeat split. Qed.

(** C7, on the code: client 1 (balance 100) deposits -5; the request is
    answered 200 and the balance goes down to 95.  A deposit of 0 is
    answered 200 as well. *)
Theorem deposit_negative_accepted :
  let w := mkWorld (sample in_progress None) [] in
  let out := run_deposit (Some "1") "1" (money (-5)) w in
  let zero := run_deposit (Some "1") "1" (money 0) w in
  fst out = json 200 (message "Deposit successful") /\
  amount_of (store w) 1 = Some (100 # 1) /\
  amount_of (store (snd out)) 1 = Some (95 # 1) /\
  fst zero = json 200 (message "Deposit successful") /\
  amount_of (store (snd zero)) 1 = Some (100 # 1).
Proof. vm_compute; repeat split. Qed.

(** C8, on the code: the credit of the contractor rejects after the debit
    of the client went through; the request is answered 500, the client
    has lost the price, the contractor has received nothing and the job
    is not marked paid. *)
Lemma payJob_rejected_credit_keeps_debit :
  let w := mkWorld (sample in_progress None) [false; false; false; true] in
  let out := run_pay (Some "1") "20" 7 w in
  fst out = json 500 (error "Internal server error") /\
  status (fst out) <> 200 /\
  amount_of (store w) 1 = Some (100 # 1) /\
  amount_of (store (snd out)) 1 = Some (90 # 1) /\
  amount_of (store (snd out)) 2 = Some (0 # 1) /\
  paid_of (store (snd out)) 20 = Some None /\
  store (snd out) <> store w.
Proof.
  vm_compute; repeat split; discriminate.
Qed.

(** ** The theorems at work on the concrete instance *)


Lemma money_lt_5_10 : (money 5 < money 10)%Qc.
Proof. unfold Qclt, Qlt; vm_compute; reflexivity. Qed.

Lemma payJob_frame_witness :
  let w := mkWorld (sample in_progress None) [] in
  let out := run_pay (Some "1") "20" 7 w in
  contracts (store (snd out)) = contracts (store w).
Proof.
  intros w out.
  destruct (payJob_frame decimal_text (Some "1") "20" 7 w (fst out) (snd out))
    as (payer & j & c & _ & _ & E & _).
  - apply surjective_pairing.
  - reflexivity.
  - exact E.
Defined.

Lemma payJob_insufficient_balance_witness :
  let w := mkWorld (sample in_progress None) [] in
  fst (run_pay (Some "3") "21" 7 w) = json 400 (error "Insufficient balance") /\
  store (snd (run_pay (Some "3") "21" 7 w)) = store w.
Proof.
  intros w.
  destruct (payJob_insufficient_balance decimal_text (Some "3") "21" 7 w carol
              (Job.mk 21 11 (money 10) None None)
              (Contract.mk 11 3 2 in_progress)) as (R & S & _).
  - apply resolves_nil.
  - reflexivity.
  - reflexivity.
  - reflexivity.
  - exact money_lt_5_10.
  - split; [exact R | exact S].
Defined.

Lemma payJob_unauthorized_witness :
  let w := mkWorld (sample in_progress None) [] in
  fst (run_pay (Some "2") "20" 7 w) =
    json 403 (error "Unauthorized: Only clients can pay for jobs") /\
  store (snd (run_pay (Some "2") "20" 7 w)) = store w.
Proof.
  intros w.
  apply (payJob_unauthorized decimal_text (Some "2") "20" 7 w bob
           (Job.mk 20 10 (money 10) None None)
           (Contract.mk 10 1 2 in_progress)).
  - apply resolves_nil.
  - reflexivity.
  - reflexivity.
  - cbn; discriminate.
Defined.

Lemma payJob_refused_unchanged_witness :
  let w := mkWorld (sample in_progress None) [false; false; true] in
  status (fst (run_pay (Some "1") "20" 7 w)) = 500 /\
  store (snd (run_pay (Some "1") "20" 7 w)) = store w.
Proof.
  intros w; split; [reflexivity|].
  apply (payJob_refused_unchanged decimal_text (Some "1") "20" 7 w
           (fst (run_pay (Some "1") "20" 7 w))).
  - apply surjective_pairing.
  - cbn; discriminate.
  - intros _ (_ & _ & E & _); cbn in E; discriminate E.
Defined.

Lemma getProfile_guard_witness :
  let w := mkWorld (sample in_progress None) [] in
  exists p,
    In p (profiles (store w)) /\
    decimal_text "2" = Some (Profile.id p) /\
    fst (getProfile decimal_text (Some "2") w) = Next p.
Proof.
  intros w.
  destruct (getProfile_guard decimal_text (Some "2") w) as (_ & _ & H & _).
  apply (H "2" bob).
  - reflexivity.
  - discriminate.
  - apply resolves_nil.
  - cbn; tauto.
  - reflexivity.
Defined.

(** ** The read-only endpoints, step by step *)

Section Reads.

Variable key_of_text : string -> option Z.

Lemma guarded_next {A} (h : Profile.t -> World -> Answer A * World)
  profile_id w payer :
  fst (getProfile key_of_text profile_id w) = Next payer ->
  guarded key_of_text h profile_id w =
  h payer (mkWorld (store w) (tl (faults w))).
Proof.
  intros G.
  destruct (getProfile_next key_of_text _ _ _ G) as (_ & _ & _ & _ & _ & E).
  unfold guarded; now rewrite E.
Qed.

Lemma guarded_payload {A} (h : Profile.t -> World -> Answer A * World)
  profile_id w a :
  fst (guarded key_of_text h profile_id w) = Payload a ->
  exists payer,
    fst (getProfile key_of_text profile_id w) = Next payer /\
    fst (h payer (mkWorld (store w) (tl (faults w)))) = Payload a.
Proof.
  intros H.
  destruct (getProfile key_of_text profile_id w) as [[r|payer] w1] eqn:E.
  - unfold guarded in H; rewrite E in H; discriminate H.
  - exists payer.
    assert (G : fst (getProfile key_of_text profile_id w) = Next payer)
      by now rewrite E.
    split; [reflexivity|].
    now rewrite <- (guarded_next h _ _ _ G).
Qed.

Lemma guarded_store {A} (h : Profile.t -> World -> Answer A * World)
  profile_id w :
  (forall p w0, store (snd (h p w0)) = store w0) ->
  store (snd (guarded key_of_text h profile_id w)) = store w.
Proof.
  intros H; unfold guarded.
  pose proof (getProfile_store key_of_text profile_id w) as S.
  destruct (getProfile key_of_text profile_id w) as [[r|payer] w1];
    cbn [snd] in *; [assumption|].
  now rewrite H.
Qed.

Lemma contract_handler_run id payer st fs :
  contract_handler key_of_text id payer (mkWorld st fs) =
  if nth 0 fs false then (Failure internal_error, mkWorld st (tl fs))
  else
    (match contract_where_id key_of_text id st with
     | None => Failure (json 404 (error "Contract not found"))
     | Some c =>
       if negb (Contract.ClientId c =? Profile.id payer)
          && negb (Contract.ContractorId c =? Profile.id payer) then
         Failure (json 403 (error
           "Unauthorized: Contract does not belong to the requesting profile"))
       else Payload c
     end, mkWorld st (tl fs)).
Proof.
  unfold contract_handler, try_catch, bind.
  rewrite query_run.
  destruct (nth 0 fs false); [reflexivity|].
  destruct (contract_where_id key_of_text id st) as [c|]; [|reflexivity].
  now destruct (negb (Contract.ClientId c =? Profile.id payer)
                && negb (Contract.ContractorId c =? Profile.id payer)).
Qed.

Lemma contracts_handler_run payer st fs :
  contracts_handler payer (mkWorld st fs) =
  if Profile.id payer =? 0 then
    (Failure (json 400 (error "Profile ID is missing or invalid")),
     mkWorld st fs)
  else if nth 0 fs false then (Failure internal_error, mkWorld st (tl fs))
  else (Payload (contracts_of (Profile.id payer) st), mkWorld st (tl fs)).
Proof.
  unfold contracts_handler, try_catch.
  destruct (Profile.id payer =? 0); [reflexivity|].
  unfold bind; rewrite query_run.
  now destruct (nth 0 fs false).
Qed.

Lemma unpaid_handler_run payer st fs :
  unpaid_handler payer (mkWorld st fs) =
  if nth 0 fs false then (Failure internal_error, mkWorld st (tl fs))
  else (Payload (unpaid_jobs (Profile.id payer) st), mkWorld st (tl fs)).
Proof.
  unfold unpaid_handler, try_catch, bind; rewrite query_run.
  now destruct (nth 0 fs false).
Qed.

Lemma contract_where_id_found id st c :
  contract_where_id key_of_text id st = Some c ->
  In c (contracts st) /\ key_of_text id = Some (Contract.id c).
Proof.
  unfold contract_where_id, key_matches; intros F.
  destruct (find_some _ _ F) as [I M].
  destruct (key_of_text id) as [k|]; [|discriminate].
  apply Z.eqb_eq in M; now subst k.
Qed.

Lemma in_unpaid_row st pid j row :
  In row (unpaid_row st pid j) <->
  exists c,
    row = (j, c) /\ Job.paid j = None /\
    find (fun c => Contract.id c =? Job.ContractId j) (contracts st) = Some c /\
    Contract.status c = in_progress /\
    (Contract.ClientId c = pid \/ Contract.ContractorId c = pid).
Proof.
  unfold unpaid_row; split.
  - destruct (Job.paid j); [intros []|].
    destruct (find _ (contracts st)) as [c|]; [|intros []].
    destruct (ContractStatus_eqb (Contract.status c) in_progress) eqn:S;
      [|intros []]; cbn [andb].
    destruct (Contract.ClientId c =? pid) eqn:E1; cbn [orb].
    + intros [<- | []]; exists c; apply Z.eqb_eq in E1.
      repeat split; [now destruct (Contract.status c) | now left].
    + destruct (Contract.ContractorId c =? pid) eqn:E2; [|intros []].
      intros [<- | []]; exists c; apply Z.eqb_eq in E2.
      repeat split; [now destruct (Contract.status c) | now right].
  - intros (c & -> & -> & -> & -> & P); cbn [ContractStatus_eqb andb].
    destruct P as [<- | <-]; rewrite Z.eqb_refl; cbn [orb].
    + now left.
    + rewrite Bool.orb_true_r; now left.
Qed.

(** ** What the read-only endpoints disclose *)

(** X1. [GET /contracts/:id] sends a contract only to one of its two
    parties: a contract that is sent is a row of the store with the
    requested id, and the caller is its client or its contractor. *)
Theorem get_contract_only_to_parties profile_id id w c :
  fst (get_contract key_of_text profile_id id w) = Payload c ->
  exists payer,
    fst (getProfile key_of_text profile_id w) = Next payer /\
    In c (contracts (store w)) /\
    key_of_text id = Some (Contract.id c) /\
    (Contract.ClientId c = Profile.id payer \/
     Contract.ContractorId c = Profile.id payer).
Proof.
  intros H; apply guarded_payload in H as (payer & G & H).
  exists payer; split; [assumption|].
  rewrite contract_handler_run in H.
  destruct (nth 0 (tl (faults w)) false); [discriminate H|]; cbn [fst] in H.
  destruct (contract_where_id key_of_text id (store w)) as [c'|] eqn:F;
    [|discriminate H].
  destruct (Contract.ClientId c' =? Profile.id payer) eqn:E1;
    destruct (Contract.ContractorId c' =? Profile.id payer) eqn:E2;
    cbn [negb andb] in H; try discriminate H;
    injection H as ->;
    destruct (contract_where_id_found _ _ _ F) as [I K];
    repeat split; try assumption;
    try (left; now apply Z.eqb_eq); right; now apply Z.eqb_eq.
Qed.

(** X2. [GET /contracts/:id], the store calls resolving: an id that no
    contract carries is answered 404, a contract of which the caller is
    neither client nor contractor is answered 403, and a party of the
    contract receives it. *)
Theorem get_contract_cases profile_id id w payer :
  resolves 2 (faults w) ->
  fst (getProfile key_of_text profile_id w) = Next payer ->
  ((forall c, In c (contracts (store w)) ->
              key_of_text id <> Some (Contract.id c)) ->
   fst (get_contract key_of_text profile_id id w) =
     Failure (json 404 (error "Contract not found"))) /\
  (forall c,
     contract_where_id key_of_text id (store w) = Some c ->
     Contract.ClientId c <> Profile.id payer ->
     Contract.ContractorId c <> Profile.id payer ->
     fst (get_contract key_of_text profile_id id w) =
       Failure (json 403 (error
         "Unauthorized: Contract does not belong to the requesting profile"))) /\
  (forall c,
     contract_where_id key_of_text id (store w) = Some c ->
     Contract.ClientId c = Profile.id payer \/
     Contract.ContractorId c = Profile.id payer ->
     fst (get_contract key_of_text profile_id id w) = Payload c).
Proof.
  intros F G; unfold get_contract.
  rewrite (guarded_next _ _ _ _ G), contract_handler_run, nth_tl.
  rewrite (F 1%nat) by lia; cbn [fst].
  repeat split.
  - intros NO.
    destruct (contract_where_id key_of_text id (store w)) as [c|] eqn:E;
      [|reflexivity].
    destruct (contract_where_id_found _ _ _ E) as [I K].
    now destruct (NO c I).
  - intros c -> N1 N2.
    apply Z.eqb_neq in N1, N2; now rewrite N1, N2.
  - intros c -> [E | E]; apply Z.eqb_eq in E; rewrite E; cbn [negb andb];
      [reflexivity|].
    now rewrite Bool.andb_false_r.
Qed.

Lemma in_contracts_of pid st c :
  In c (contracts_of pid st) <->
  In c (contracts st) /\
  (Contract.ClientId c = pid \/ Contract.ContractorId c = pid) /\
  Contract.status c <> terminated.
Proof.
  unfold contracts_of, contract_listed; rewrite filter_In.
  rewrite Bool.andb_true_iff, Bool.orb_true_iff, !Z.eqb_eq, Bool.negb_true_iff.
  assert (S : ContractStatus_eqb (Contract.status c) terminated = false <->
              Contract.status c <> terminated)
    by (destruct (Contract.status c); cbn; split; congruence).
  rewrite S; tauto.
Qed.

(** X3. [GET /contracts] lists exactly the contracts of the store of which
    the caller is the client or the contractor and whose status is not
    [terminated]. *)
Theorem get_contracts_listing profile_id w cs :
  fst (get_contracts key_of_text profile_id w) = Payload cs ->
  exists payer,
    fst (getProfile key_of_text profile_id w) = Next payer /\
    forall c,
      In c cs <->
      In c (contracts (store w)) /\
      (Contract.ClientId c = Profile.id payer \/
       Contract.ContractorId c = Profile.id payer) /\
      Contract.status c <> terminated.
Proof.
  intros H; apply guarded_payload in H as (payer & G & H).
  exists payer; split; [assumption|].
  rewrite contracts_handler_run in H.
  destruct (Profile.id payer =? 0); [discriminate H|].
  destruct (nth 0 (tl (faults w)) false); [discriminate H|].
  injection H as <-; intros c; apply in_contracts_of.
Qed.

(** X4. [GET /contracts] refuses the profile whose id is 0: the guard
    found the profile, yet [!profile.id] holds and the answer is 400
    without any query. *)
Theorem get_contracts_id_zero profile_id w payer :
  fst (getProfile key_of_text profile_id w) = Next payer ->
  Profile.id payer = 0 ->
  get_contracts key_of_text profile_id w =
    (Failure (json 400 (error "Profile ID is missing or invalid")),
     mkWorld (store w) (tl (faults w))).
Proof.
  intros G Z0; unfold get_contracts.
  now rewrite (guarded_next _ _ _ _ G), contracts_handler_run, Z0.
Qed.

(** X5. [GET /jobs/unpaid] lists exactly the jobs whose [paid] is [null]
    and whose contract is [in_progress] with the caller as client or
    contractor, each with that contract. *)
Theorem get_unpaid_listing profile_id w rows :
  fst (get_unpaid key_of_text profile_id w) = Payload rows ->
  exists payer,
    fst (getProfile key_of_text profile_id w) = Next payer /\
    forall j c,
      In (j, c) rows <->
      In j (jobs (store w)) /\
      Job.paid j = None /\
      find (fun c => Contract.id c =? Job.ContractId j) (contracts (store w))
        = Some c /\
      Contract.status c = in_progress /\
      (Contract.ClientId c = Profile.id payer \/
       Contract.ContractorId c = Profile.id payer).
Proof.
  intros H; apply guarded_payload in H as (payer & G & H).
  exists payer; split; [assumption|].
  rewrite unpaid_handler_run in H.
  destruct (nth 0 (tl (faults w)) false); [discriminate H|].
  injection H as <-; intros j c; cbn [store].
  unfold unpaid_jobs; rewrite in_flat_map; split.
  - intros (x & I & R); apply in_unpaid_row in R as (c' & [= <- <-] & R).
    now split.
  - intros (I & R); exists j; split; [assumption|].
    apply in_unpaid_row; now exists c.
Qed.

(** X6. The three [GET] endpoints never write: whatever they answer, a
    rejected read included, the store is what it was. *)
Theorem get_endpoints_read_only profile_id id w :
  store (snd (get_contract key_of_text profile_id id w)) = store w /\
  store (snd (get_contracts key_of_text profile_id w)) = store w /\
  store (snd (get_unpaid key_of_text profile_id w)) = store w.
Proof.
  repeat split; apply guarded_store; intros p [st fs].
  - rewrite contract_handler_run; now destruct (nth 0 fs false).
  - rewrite contracts_handler_run.
    destruct (Profile.id p =? 0); [reflexivity|].
    now destruct (nth 0 fs false).
  - rewrite unpaid_handler_run; now destruct (nth 0 fs false).
Qed.

End Reads.

(** ** The ledger across requests *)



Lemma in_update_paid now jid js x' :
  In x' (update_paid now jid js) ->
  exists x, In x js /\
    ((Job.id x = jid /\ x' = Job.mark_paid now x) \/ (Job.id x <> jid /\ x' = x)).
Proof.
  unfold update_paid; rewrite in_map_iff; intros (x & E & I).
  exists x; split; [assumption|].
  destruct (Job.id x =? jid) eqn:B;
    [apply Z.eqb_eq in B; left | apply Z.eqb_neq in B; right]; now split.
Qed.


Section Ledger.

Variable key_of_text : string -> option Z.
Variable parseInt : string -> option Z.


(** X7. A payment for a job id that no job carries is answered 404 and
    the store is what it was. *)
Theorem payJob_job_not_found profile_id job_id now w payer :
  resolves 2 (faults w) ->
  fst (getProfile key_of_text profile_id w) = Next payer ->
  (forall j, In j (jobs (store w)) -> key_of_text job_id <> Some (Job.id j)) ->
  fst (post_pay key_of_text profile_id job_id now w) =
    json 404 (error "Job not found") /\
  store (snd (post_pay key_of_text profile_id job_id now w)) = store w.
Proof.
  intros F G NO.
  rewrite (post_pay_next key_of_text _ job_id now _ _ G), pay_handler_run, nth_tl.
  rewrite (F 1%nat) by lia.
  destruct (job_with_contract key_of_text job_id (store w)) as [[j oc]|] eqn:E;
    [|now split].
  unfold job_with_contract in E.
  destruct (find _ (jobs (store w))) as [j'|] eqn:FJ; [|discriminate].
  destruct (find_some _ _ FJ) as [I M]; unfold key_matches in M.
  destruct (key_of_text job_id) as [k|]; [|discriminate].
  apply Z.eqb_eq in M; subst k. now destruct (NO j' I).
Qed.

(** X8. A payment for a job whose [ContractId] is the id of no contract
    reads [ClientId] of [null]: the exception is caught, the answer is
    500 and the store is what it was. *)
Theorem payJob_job_without_contract profile_id job_id now w payer j :
  resolves 2 (faults w) ->
  fst (getProfile key_of_text profile_id w) = Next payer ->
  job_with_contract key_of_text job_id (store w) = Some (j, None) ->
  fst (post_pay key_of_text profile_id job_id now w) = internal_error /\
  store (snd (post_pay key_of_text profile_id job_id now w)) = store w.
Proof.
  intros F G FJ.
  rewrite (post_pay_next key_of_text _ job_id now _ _ G), pay_handler_run, nth_tl.
  rewrite (F 1%nat) by lia. rewrite FJ. now split.
Qed.

(** X9. With every store call resolving, a resolved caller is answered
    200 exactly when the job exists with a contract, the caller is the
    client of that contract and holds at least the price. *)
Theorem payJob_success_iff profile_id job_id now w payer :
  resolves 5 (faults w) ->
  fst (getProfile key_of_text profile_id w) = Next payer ->
  (status (fst (post_pay key_of_text profile_id job_id now w)) = 200 <->
   exists j c,
     job_with_contract key_of_text job_id (store w) = Some (j, Some c) /\
     Contract.ClientId c = Profile.id payer /\
     (Job.price j <= Profile.balance payer)%Qc).
Proof.
  intros F G.
  rewrite (post_pay_next key_of_text _ job_id now _ _ G), pay_handler_run, !nth_tl.
  rewrite (F 1%nat), (F 2%nat), (F 3%nat), (F 4%nat) by lia.
  destruct (job_with_contract key_of_text job_id (store w)) as [[j [c|]]|];
    try (cbn; split; [discriminate | now intros (? & ? & ? & _)]).
  destruct (Contract.ClientId c =? Profile.id payer) eqn:EC; cbn [negb].
  - destruct (Qcltb (Profile.balance payer) (Job.price j)) eqn:EB; cbn.
    + split; [discriminate|].
      intros (j' & c' & [= <- <-] & _ & LE).
      apply Qcltb_false in LE; congruence.
    + split; [|reflexivity]; intros _; exists j, c.
      apply Z.eqb_eq in EC; apply Qcltb_false in EB; now repeat split.
  - cbn; split; [discriminate|].
    intros (j' & c' & [= <- <-] & E & _).
    apply Z.eqb_neq in EC; contradiction.
Qed.


(** ** Payments, listings and the deposit bound *)

(** X13. Once a payment is answered 200 the paid job is on nobody's list
    of unpaid jobs: no row of [GET /jobs/unpaid], for any profile, carries
    the id that was paid. *)
Theorem paid_job_leaves_unpaid_listing profile_id job_id now w r w' :
  post_pay key_of_text profile_id job_id now w = (r, w') ->
  status r = 200 ->
  forall pid j c,
    In (j, c) (unpaid_jobs pid (store w')) ->
    key_of_text job_id <> Some (Job.id j).
Proof.
  intros R OK pid x cx I K.
  destruct (post_pay_success key_of_text _ _ _ _ _ _ R OK)
    as (payer & j & c & _ & FJ & _ & _ & _ & S).
  destruct (job_with_contract_found key_of_text _ _ _ _ FJ) as (_ & KJ & _).
  assert (E : Job.id x = Job.id j) by congruence.
  unfold unpaid_jobs in I; apply in_flat_map in I as (y & IY & RY).
  apply in_unpaid_row in RY as (c' & [= <- <-] & PN & _).
  rewrite S in IY; cbn [jobs paid_store marked credited debited] in IY.
  apply in_update_paid in IY as (z & _ & [[_ ->] | [NZ ->]]).
  - discriminate PN.
  - contradiction.
Qed.

(** ** Deposits *)

(** X18. A deposit is all or nothing: a request that is not answered 200
    leaves the store as it was, whichever store call rejects. *)
Theorem deposit_refused_unchanged profile_id userId amount w r w' :
  post_deposit key_of_text parseInt profile_id userId amount w = (r, w') ->
  status r <> 200 ->
  store w' = store w.
Proof.
  destruct w as [st fs]; unfold post_deposit; cbn [store faults].
  destruct profile_id as [[|a text]|]; try (cbn; now intros [= <- <-]).
  rewrite getProfile_run.
  destruct (nth 0 fs false); [now intros [= <- <-]|].
  destruct (profile_where_id key_of_text (String a text) st) as [payer|];
    [|now intros [= <- <-]].
  rewrite deposit_handler_run.
  destruct (negb (is_user parseInt payer userId) || _); [now intros [= <- <-]|].
  destruct (nth 0 (tl fs) false); [now intros [= <- <-]|].
  destruct (Qcgtb amount _); [now intros [= <- <-]|].
  destruct (nth 1 (tl fs) false); [now intros [= <- <-]|].
  intros [= <- <-] N; cbn in N; congruence.
Qed.

(** X19. A deposit on another account ([userId] is not the caller's id,
    or is no number) and a deposit by a contractor are answered 403
    before any store call of the handler. *)
Theorem deposit_forbidden profile_id userId amount w payer :
  fst (getProfile key_of_text profile_id w) = Next payer ->
  parseInt userId <> Some (Profile.id payer) \/
  Profile.type payer = contractor ->
  post_deposit key_of_text parseInt profile_id userId amount w =
    (json 403 (error "Unauthorized: Access denied"),
     mkWorld (store w) (tl (faults w))).
Proof.
  intros G H.
  rewrite (post_deposit_next key_of_text parseInt _ userId amount _ _ G).
  rewrite deposit_handler_run.
  assert (E : negb (is_user parseInt payer userId)
              || negb (ProfileType_eqb (Profile.type payer) client) = true).
  { destruct H as [N | ->]; [|apply Bool.orb_true_r].
    unfold is_user; destruct (parseInt userId) as [n|]; [|reflexivity].
    destruct (Profile.id payer =? n) eqn:B; [|reflexivity].
    apply Z.eqb_eq in B; subst n; now destruct N. }
  now rewrite E.
Qed.

(** X20. With a header present, a rejected profile lookup is answered 500
    by the guard, and neither the payment nor the deposit handler runs:
    the request ends there with the store as it was. *)
Theorem getProfile_rejected_read a text st fs :
  nth 0 fs false = true ->
  getProfile key_of_text (Some (String a text)) (mkWorld st fs) =
    (Respond internal_error, mkWorld st (tl fs)) /\
  (forall job_id now,
     post_pay key_of_text (Some (String a text)) job_id now (mkWorld st fs) =
       (internal_error, mkWorld st (tl fs))) /\
  (forall userId amount,
     post_deposit key_of_text parseInt (Some (String a text)) userId amount
       (mkWorld st fs) = (internal_error, mkWorld st (tl fs))).
Proof.
  intros F; unfold post_pay, post_deposit; rewrite getProfile_run, F.
  now repeat split.
Qed.

End Ledger.

(** ** From a listing to the request on one of its rows *)

Lemma find_by_unique_key {A} (key : A -> Z) (l : list A) (a : A) :
  NoDup (map key l) -> In a l ->
  find (fun x => key a =? key x) l = Some a.
Proof.
  induction l as [|x l IH]; cbn; [intros _ []|].
  intros D I; inversion D as [|y l' N D']; subst.
  destruct (key a =? key x) eqn:E.
  - apply Z.eqb_eq in E; destruct I as [-> | I]; [reflexivity|].
    destruct N; rewrite <- E; now apply in_map.
  - destruct I as [-> | I]; [now rewrite Z.eqb_refl in E | now apply IH].
Qed.

Section Follow.

Variable key_of_text : string -> option Z.

Lemma contract_where_id_unique id st c :
  NoDup (map Contract.id (contracts st)) -> In c (contracts st) ->
  key_of_text id = Some (Contract.id c) ->
  contract_where_id key_of_text id st = Some c.
Proof.
  intros D I K; unfold contract_where_id.
  rewrite <- (find_by_unique_key Contract.id _ c D I).
  apply find_pointwise; intros x; unfold key_matches; now rewrite K.
Qed.


(** X21. Contract ids being unique, every contract that [GET /contracts]
    lists for a caller is sent to that caller by [GET /contracts/:id] on
    a text the store reads as its id. *)
Theorem listed_contract_can_be_fetched profile_id id w cs c :
  resolves 2 (faults w) ->
  NoDup (map Contract.id (contracts (store w))) ->
  fst (get_contracts key_of_text profile_id w) = Payload cs ->
  In c cs ->
  key_of_text id = Some (Contract.id c) ->
  fst (get_contract key_of_text profile_id id w) = Payload c.
Proof.
  intros F D H I K.
  apply guarded_payload in H as (payer & G & H).
  rewrite contracts_handler_run in H.
  destruct (Profile.id payer =? 0); [discriminate H|].
  destruct (nth 0 (tl (faults w)) false); [discriminate H|].
  injection H as <-.
  apply in_contracts_of in I as (IC & P & _).
  unfold get_contract.
  rewrite (guarded_next key_of_text _ _ _ _ G), contract_handler_run, nth_tl.
  rewrite (F 1%nat) by lia; cbn [fst].
  rewrite (contract_where_id_unique _ _ _ D IC K).
  destruct P as [E | E]; apply Z.eqb_eq in E; rewrite E; cbn [negb andb];
    [reflexivity|].
  now rewrite Bool.andb_false_r.
Qed.


End Follow.

(** ** The further theorems at work on the concrete instance *)




Lemma get_contract_only_to_parties_witness :
  let w := mkWorld (sample in_progress None) [] in
  let c := Contract.mk 10 1 2 in_progress in
  exists payer,
    fst (getProfile decimal_text (Some "2") w) = Next payer /\
    In c (contracts (store w)) /\
    decimal_text "10" = Some (Contract.id c) /\
    (Contract.ClientId c = Profile.id payer \/
     Contract.ContractorId c = Profile.id payer).
Proof.
  intros w c.
  apply (get_contract_only_to_parties decimal_text (Some "2") "10" w c).
  reflexivity.
Defined.

Lemma get_contract_cases_witness :
  let w := mkWorld (sample in_progress None) [] in
  fst (get_contract decimal_text (Some "3") "10" w) =
    Failure (json 403 (error
      "Unauthorized: Contract does not belong to the requesting profile")).
Proof.
  intros w.
  destruct (get_contract_cases decimal_text (Some "3") "10" w carol)
    as (_ & H & _).
  - apply resolves_nil.
  - reflexivity.
  - apply (H (Contract.mk 10 1 2 in_progress)).
    + reflexivity.
    + cbn; discriminate.
    + cbn; discriminate.
Defined.

Lemma get_contracts_listing_witness :
  let w := mkWorld (sample terminated None) [] in
  exists payer,
    fst (getProfile decimal_text (Some "2") w) = Next payer /\
    forall c,
      In c [Contract.mk 11 3 2 in_progress] <->
      In c (contracts (store w)) /\
      (Contract.ClientId c = Profile.id payer \/
       Contract.ContractorId c = Profile.id payer) /\
      Contract.status c <> terminated.
Proof.
  intros w.
  apply (get_contracts_listing decimal_text (Some "2") w).
  reflexivity.
Defined.

Lemma get_contracts_id_zero_witness :
  let zed := Profile.mk 0 client (money 1) "Zed" "Zero" "buyer" in
  let w := mkWorld (mkStore [zed] [Contract.mk 10 0 2 in_progress] []) [] in
  get_contracts decimal_text (Some "0") w =
    (Failure (json 400 (error "Profile ID is missing or invalid")),
     mkWorld (store w) (tl (faults w))).
Proof.
  intros zed w.
  apply (get_contracts_id_zero decimal_text (Some "0") w zed); reflexivity.
Defined.

Lemma get_unpaid_listing_witness :
  let w := mkWorld (sample in_progress None) [] in
  let rows := [(Job.mk 20 10 (money 10) None None, Contract.mk 10 1 2 in_progress)] in
  exists payer,
    fst (getProfile decimal_text (Some "1") w) = Next payer /\
    forall j c,
      In (j, c) rows <->
      In j (jobs (store w)) /\
      Job.paid j = None /\
      find (fun c => Contract.id c =? Job.ContractId j) (contracts (store w))
        = Some c /\
      Contract.status c = in_progress /\
      (Contract.ClientId c = Profile.id payer \/
       Contract.ContractorId c = Profile.id payer).
Proof.
  intros w rows.
  apply (get_unpaid_listing decimal_text (Some "1") w rows).
  reflexivity.
Defined.

Lemma payJob_job_not_found_witness :
  let w := mkWorld (sample in_progress None) [] in
  fst (run_pay (Some "1") "99" 7 w) = json 404 (error "Job not found") /\
  store (snd (run_pay (Some "1") "99" 7 w)) = store w.
Proof.
  intros w.
  apply (payJob_job_not_found decimal_text (Some "1") "99" 7 w alice).
  - apply resolves_nil.
  - reflexivity.
  - intros j [<- | [<- | []]]; cbn; discriminate.
Defined.

Lemma payJob_job_without_contract_witness :
  let orphan := Job.mk 20 99 (money 10) None None in
  let w := mkWorld (mkStore [alice; bob] [Contract.mk 10 1 2 in_progress]
                            [orphan]) [] in
  fst (post_pay decimal_text (Some "1") "20" 7 w) = internal_error /\
  store (snd (post_pay decimal_text (Some "1") "20" 7 w)) = store w.
Proof.
  intros orphan w.
  apply (payJob_job_without_contract decimal_text (Some "1") "20" 7 w alice orphan).
  - apply resolves_nil.
  - reflexivity.
  - reflexivity.
Defined.

Lemma payJob_success_iff_witness :
  let w := mkWorld (sample in_progress None) [] in
  status (fst (run_pay (Some "1") "20" 7 w)) = 200 <->
  exists j c,
    job_with_contract decimal_text "20" (store w) = Some (j, Some c) /\
    Contract.ClientId c = Profile.id alice /\
    (Job.price j <= Profile.balance alice)%Qc.
Proof.
  intros w.
  apply (payJob_success_iff decimal_text (Some "1") "20" 7 w alice).
  - apply resolves_nil.
  - reflexivity.
Defined.


Lemma paid_job_leaves_unpaid_listing_witness :
  let w := mkWorld (sample in_progress None) [] in
  let out := run_pay (Some "1") "20" 7 w in
  let j := Job.mk 21 11 (money 10) None None in
  let c := Contract.mk 11 3 2 in_progress in
  In (j, c) (unpaid_jobs 3 (store (snd out))) /\
  decimal_text "20" <> Some (Job.id j).
Proof.
  intros w out j c.
  assert (I : In (j, c) (unpaid_jobs 3 (store (snd out)))) by (now left).
  split; [exact I|].
  apply (paid_job_leaves_unpaid_listing decimal_text (Some "1") "20" 7 w
           (fst out) (snd out) (surjective_pairing _) eq_refl 3 j c I).
Defined.

Lemma deposit_refused_unchanged_witness :
  let w := mkWorld (sample in_progress None) [false; false; true] in
  store (snd (run_deposit (Some "1") "1" (money 2) w)) = store w.
Proof.
  intros w.
  apply (deposit_refused_unchanged decimal_text decimal_text (Some "1") "1"
           (money 2) w (fst (run_deposit (Some "1") "1" (money 2) w))).
  - apply surjective_pairing.
  - cbn; discriminate.
Defined.

Lemma deposit_forbidden_witness :
  let w := mkWorld (sample in_progress None) [] in
  run_deposit (Some "2") "2" (money 1) w =
    (json 403 (error "Unauthorized: Access denied"),
     mkWorld (store w) (tl (faults w))).
Proof.
  intros w.
  apply (deposit_forbidden decimal_text decimal_text (Some "2") "2" (money 1) w bob).
  - reflexivity.
  - right; reflexivity.
Defined.

Lemma getProfile_rejected_read_witness :
  getProfile decimal_text (Some "1") (mkWorld (sample in_progress None) [true]) =
    (Respond internal_error, mkWorld (sample in_progress None) []).
Proof.
  refine (proj1 (getProfile_rejected_read decimal_text decimal_text _ _
                   (sample in_progress None) [true] _)).
  reflexivity.
Defined.

Lemma sample_contract_ids s paid : NoDup (map Contract.id (contracts (sample s paid))).
Proof. cbn; repeat constructor; cbn; intuition discriminate. Qed.

Lemma listed_contract_can_be_fetched_witness :
  let w := mkWorld (sample in_progress None) [] in
  fst (get_contract decimal_text (Some "2") "11" w) =
    Payload (Contract.mk 11 3 2 in_progress).
Proof.
  intros w.
  apply (listed_contract_can_be_fetched decimal_text (Some "2") "11" w
           [Contract.mk 10 1 2 in_progress; Contract.mk 11 3 2 in_progress]).
  - apply resolves_nil.
  - apply sample_contract_ids.
  - reflexivity.
  - cbn; tauto.
  - reflexivity.
Defined.


(** ** The handlers over the arithmetic of the store, step by step *)

Lemma sum_price_exact js : sum_price js = exact_sum (map Job.price js).
Proof.
  induction js as [|j js IH]; cbn; [reflexivity|]. now rewrite IH.
Qed.

Section Arithmetic.

Variable round : Qc -> Qc.
Variable SUM : list Qc -> Qc.
Variable key_of_text : string -> option Z.
Variable parseInt : string -> option Z.

Lemma rounded_pay_handler_run payer job_id now st fs :
  Rounded.pay_handler round key_of_text payer job_id now (mkWorld st fs) =
  if nth 0 fs false then (internal_error, mkWorld st (tl fs)) else
  match job_with_contract key_of_text job_id st with
  | None => (json 404 (error "Job not found"), mkWorld st (tl fs))
  | Some (j, None) => (internal_error, mkWorld st (tl fs))
  | Some (j, Some c) =>
    if negb (Contract.ClientId c =? Profile.id payer) then
      (json 403 (error "Unauthorized: Only clients can pay for jobs"),
       mkWorld st (tl fs))
    else if Qcltb (Profile.balance payer) (Job.price j) then
      (json 400 (error "Insufficient balance"), mkWorld st (tl fs))
    else if nth 1 fs false then
      (internal_error, mkWorld st (tl (tl fs)))
    else if nth 2 fs false then
      (internal_error,
       mkWorld (Rounded.debited round payer j st) (tl (tl (tl fs))))
    else if nth 3 fs false then
      (internal_error,
       mkWorld (Rounded.credited round c j (Rounded.debited round payer j st))
               (tl (tl (tl (tl fs)))))
    else
      (json 200 (message "Payment successful"),
       mkWorld (Rounded.paid_store round payer j c now st)
               (tl (tl (tl (tl fs)))))
  end.
Proof.
  unfold Rounded.pay_handler, try_catch, bind, Job_findByPk.
  rewrite query_run.
  destruct (nth 0 fs false); [reflexivity|].
  destruct (job_with_contract key_of_text job_id st) as [[j [c|]]|];
    try reflexivity.
  unfold ret at 1.
  destruct (negb (Contract.ClientId c =? Profile.id payer)); [reflexivity|].
  destruct (Qcltb (Profile.balance payer) (Job.price j)); [reflexivity|].
  unfold Profile_update, Job_update.
  rewrite exec_run, nth_tl.
  destruct (nth 1 fs false); [reflexivity|].
  rewrite exec_run, !nth_tl.
  destruct (nth 2 fs false); [reflexivity|].
  rewrite exec_run, !nth_tl.
  destruct (nth 3 fs false); reflexivity.
Qed.

Lemma rounded_deposit_handler_run payer userId amount st fs :
  Rounded.deposit_handler round SUM parseInt payer userId amount
    (mkWorld st fs) =
  if negb (is_user parseInt payer userId)
     || negb (ProfileType_eqb (Profile.type payer) client) then
    (json 403 (error "Unauthorized: Access denied"), mkWorld st fs)
  else if nth 0 fs false then (internal_error, mkWorld st (tl fs))
  else if Qcgtb amount
            (round (SUM (Rounded.prices_to_pay st (Profile.id payer))
                    * quarter))%Qc then
    (json 400 (error "Deposit amount exceeds maximum allowed"),
     mkWorld st (tl fs))
  else if nth 1 fs false then (internal_error, mkWorld st (tl (tl fs)))
  else
    (json 200 (message "Deposit successful"),
     mkWorld (mkStore (update_balance (fun b => round (b + amount))%Qc
                         (Profile.id payer) (profiles st))
                      (contracts st) (jobs st))
             (tl (tl fs))).
Proof.
  unfold Rounded.deposit_handler, try_catch.
  destruct (negb (is_user parseInt payer userId)
            || negb (ProfileType_eqb (Profile.type payer) client));
    [reflexivity|].
  unfold bind, Rounded.Job_sum_price.
  rewrite query_run.
  destruct (nth 0 fs false); [reflexivity|].
  destruct (Qcgtb amount _); [reflexivity|].
  unfold Profile_update.
  rewrite exec_run, nth_tl.
  destruct (nth 1 fs false); reflexivity.
Qed.


Lemma rounded_post_deposit_next profile_id userId amount w payer :
  fst (getProfile key_of_text profile_id w) = Next payer ->
  Rounded.post_deposit round SUM key_of_text parseInt profile_id userId
    amount w =
  Rounded.deposit_handler round SUM parseInt payer userId amount
    (mkWorld (store w) (tl (faults w))).
Proof.
  intros G.
  destruct (getProfile_next key_of_text _ _ _ G) as (_ & _ & _ & _ & _ & E).
  unfold Rounded.post_deposit; now rewrite E.
Qed.


(** A payment answered 200 went through every check and every write. *)
Lemma rounded_post_pay_success profile_id job_id now w r w' :
  Rounded.post_pay round key_of_text profile_id job_id now w = (r, w') ->
  status r = 200 ->
  exists payer j c,
    fst (getProfile key_of_text profile_id w) = Next payer /\
    job_with_contract key_of_text job_id (store w) = Some (j, Some c) /\
    Contract.ClientId c = Profile.id payer /\
    (Job.price j <= Profile.balance payer)%Qc /\
    r = json 200 (message "Payment successful") /\
    store w' = Rounded.paid_store round payer j c now (store w).
Proof.
  destruct w as [st fs]; unfold Rounded.post_pay.
  destruct profile_id as [[|a text]|];
    try (cbn; intros [= <- <-]; cbn; discriminate).
  rewrite getProfile_run; cbn [store].
  destruct (nth 0 fs false); [intros [= <- <-]; cbn; discriminate|].
  destruct (profile_where_id key_of_text (String a text) st) as [payer|];
    [|intros [= <- <-]; cbn; discriminate].
  rewrite rounded_pay_handler_run, !nth_tl.
  destruct (nth 1 fs false); [intros [= <- <-]; cbn; discriminate|].
  destruct (job_with_contract key_of_text job_id st) as [[j [c|]]|];
    try (intros [= <- <-]; cbn; discriminate).
  destruct (Contract.ClientId c =? Profile.id payer) eqn:EC; cbn [negb];
    [|intros [= <- <-]; cbn; discriminate].
  destruct (Qcltb (Profile.balance payer) (Job.price j)) eqn:EB;
    [intros [= <- <-]; cbn; discriminate|].
  destruct (nth 2 fs false); [intros [= <- <-]; cbn; discriminate|].
  destruct (nth 3 fs false); [intros [= <- <-]; cbn; discriminate|].
  destruct (nth 4 fs false); [intros [= <- <-]; cbn; discriminate|].
  intros [= <- <-] _.
  exists payer, j, c; cbn [fst store].
  apply Z.eqb_eq in EC; apply Qcltb_false in EB.
  now repeat split.
Qed.

(** ** What a payment writes *)

Lemma rounded_paid_store_payer payer j c now st row :
  Profile.id payer <> Contract.ContractorId c ->
  profile_by_id (Profile.id payer) (profiles st) = Some row ->
  balance_of (Rounded.paid_store round payer j c now st) (Profile.id payer) =
  Some (round (Profile.balance row - Job.price j))%Qc.
Proof.
  intros N F; unfold balance_of, Rounded.paid_store;
    cbn [profiles marked Rounded.credited Rounded.debited].
  rewrite profile_by_id_update_other by assumption.
  now rewrite profile_by_id_update_same, F.
Qed.

Lemma rounded_paid_store_contractor payer j c now st q :
  Profile.id payer <> Contract.ContractorId c ->
  profile_by_id (Contract.ContractorId c) (profiles st) = Some q ->
  balance_of (Rounded.paid_store round payer j c now st)
             (Contract.ContractorId c) =
  Some (round (Profile.balance q + Job.price j))%Qc.
Proof.
  intros N F; unfold balance_of, Rounded.paid_store;
    cbn [profiles marked Rounded.credited Rounded.debited].
  rewrite profile_by_id_update_same.
  rewrite profile_by_id_update_other by congruence.
  now rewrite F.
Qed.

Lemma rounded_paid_store_other payer j c now st pid :
  pid <> Profile.id payer -> pid <> Contract.ContractorId c ->
  balance_of (Rounded.paid_store round payer j c now st) pid =
  balance_of st pid.
Proof.
  intros N1 N2; unfold balance_of, Rounded.paid_store;
    cbn [profiles marked Rounded.credited Rounded.debited].
  now rewrite !profile_by_id_update_other.
Qed.

Lemma rounded_paid_store_total payer j c now st row q :
  NoDup (profile_ids st) ->
  Profile.id payer <> Contract.ContractorId c ->
  profile_by_id (Profile.id payer) (profiles st) = Some row ->
  profile_by_id (Contract.ContractorId c) (profiles st) = Some q ->
  total_balance (Rounded.paid_store round payer j c now st) =
  (total_balance st
   + ((round (Profile.balance row - Job.price j)
       + round (Profile.balance q + Job.price j))
      - (Profile.balance row + Profile.balance q)))%Qc.
Proof.
  intros D N FP FQ; unfold total_balance, Rounded.paid_store;
    cbn [profiles marked Rounded.credited Rounded.debited].
  rewrite (sum_balances_update _ _ _ q).
  - rewrite (sum_balances_update _ _ _ row) by assumption. ring.
  - now rewrite update_balance_ids.
  - now rewrite profile_by_id_update_other by congruence.
Qed.

(** C1, as the code has it.  A payment answered 200, for a job of price
    [p] whose contractor is another profile than the paying client, sets
    the balance [bc] of the client to [bc - p] and the balance [bk] of
    the contractor to [bk + p], each as the store computes it, and writes
    no other balance.  The sum of the two balances and the sum of all
    balances move by what these two operations round off: they are
    unchanged when both operations are exact.  Profile ids are unique. *)
Theorem payJob_moves_price profile_id job_id now w r w' :
  NoDup (profile_ids (store w)) ->
  Rounded.post_pay round key_of_text profile_id job_id now w = (r, w') ->
  status r = 200 ->
  exists payer j c bc,
    fst (getProfile key_of_text profile_id w) = Next payer /\
    job_with_contract key_of_text job_id (store w) = Some (j, Some c) /\
    Contract.ClientId c = Profile.id payer /\
    balance_of (store w) (Profile.id payer) = Some bc /\
    (forall pid,
       pid <> Profile.id payer -> pid <> Contract.ContractorId c ->
       balance_of (store w') pid = balance_of (store w) pid) /\
    (forall bk,
       Contract.ContractorId c <> Profile.id payer ->
       balance_of (store w) (Contract.ContractorId c) = Some bk ->
       let bc' := round (bc - Job.price j)%Qc in
       let bk' := round (bk + Job.price j)%Qc in
       balance_of (store w') (Profile.id payer) = Some bc' /\
       balance_of (store w') (Contract.ContractorId c) = Some bk' /\
       both_balances (store w) (Profile.id payer) (Contract.ContractorId c)
         = Some (bc + bk)%Qc /\
       both_balances (store w') (Profile.id payer) (Contract.ContractorId c)
         = Some (bc' + bk')%Qc /\
       total_balance (store w') =
         (total_balance (store w) + ((bc' + bk') - (bc + bk)))%Qc /\
       (bc' = (bc - Job.price j)%Qc -> bk' = (bk + Job.price j)%Qc ->
        both_balances (store w') (Profile.id payer) (Contract.ContractorId c)
          = both_balances (store w) (Profile.id payer) (Contract.ContractorId c)
        /\ total_balance (store w') = total_balance (store w))).
Proof.
  intros D R OK.
  destruct (rounded_post_pay_success _ _ _ _ _ _ R OK)
    as (payer & j & c & G & FJ & EC & _ & _ & ->).
  destruct (getProfile_next key_of_text _ _ _ G) as (text & _ & _ & _ & FP & _).
  apply profile_where_id_found in FP as (_ & _ & FP).
  exists payer, j, c, (Profile.balance payer).
  assert (B1 : balance_of (store w) (Profile.id payer)
               = Some (Profile.balance payer))
    by (unfold balance_of; now rewrite FP).
  do 4 (split; [assumption|]).
  split; [intros pid N1 N2; now apply rounded_paid_store_other|].
  intros bk N B2 bc' bk'; subst bc' bk'.
  assert (N' : Profile.id payer <> Contract.ContractorId c) by congruence.
  unfold balance_of in B2.
  destruct (profile_by_id (Contract.ContractorId c) (profiles (store w)))
    as [q|] eqn:FQ; [|discriminate].
  injection B2 as <-.
  pose proof (rounded_paid_store_payer payer j c now (store w) payer N' FP)
    as B1'.
  pose proof (rounded_paid_store_contractor payer j c now (store w) q N' FQ)
    as B2'.
  assert (B2 : balance_of (store w) (Contract.ContractorId c)
               = Some (Profile.balance q))
    by (unfold balance_of; now rewrite FQ).
  assert (S : both_balances (store w) (Profile.id payer)
                (Contract.ContractorId c)
              = Some (Profile.balance payer + Profile.balance q)%Qc)
    by (unfold both_balances; now rewrite B1, B2).
  assert (S' : both_balances (Rounded.paid_store round payer j c now (store w))
                 (Profile.id payer) (Contract.ContractorId c)
               = Some (round (Profile.balance payer - Job.price j)
                       + round (Profile.balance q + Job.price j))%Qc)
    by (unfold both_balances; now rewrite B1', B2').
  pose proof (rounded_paid_store_total payer j c now (store w) payer q
                D N' FP FQ) as T.
  do 5 (split; [assumption|]).
  intros E1 E2; rewrite S', S, T, E1, E2; split; [f_equal|]; ring.
Qed.






(** X14. After a payment answered 200 the jobs over which the deposit
    handler sums, for any client, are the jobs over which it summed
    before, in the same order, without the job that was paid. *)
Theorem payment_removes_job_from_deposit_base profile_id job_id now w r w' :
  Rounded.post_pay round key_of_text profile_id job_id now w = (r, w') ->
  status r = 200 ->
  exists j oc,
    job_with_contract key_of_text job_id (store w) = Some (j, oc) /\
    forall clientId,
      filter (job_to_pay (store w') clientId) (jobs (store w')) =
      filter (fun x => job_to_pay (store w) clientId x
                       && negb (Job.id x =? Job.id j))
             (jobs (store w)).
Proof.
  intros R OK.
  destruct (rounded_post_pay_success _ _ _ _ _ _ R OK)
    as (payer & j & c & _ & FJ & _ & _ & _ & ->).
  exists j, (Some c); split; [assumption|]; intros clientId.
  unfold Rounded.paid_store;
    cbn [jobs marked Rounded.credited Rounded.debited].
  rewrite (filter_ext _ (job_to_pay (store w) clientId))
    by (intros x; unfold job_to_pay; reflexivity).
  generalize (jobs (store w)); intros js0.
  induction js0 as [|x js IH]; [reflexivity|].
  cbn [update_paid map filter].
  fold (update_paid now (Job.id j) js).
  destruct (Job.id x =? Job.id j) eqn:E; cbn [negb].
  - rewrite Bool.andb_false_r.
    change (job_to_pay (store w) clientId (Job.mark_paid now x)) with false.
    exact IH.
  - rewrite Bool.andb_true_r.
    destruct (job_to_pay (store w) clientId x); [f_equal|]; exact IH.
Qed.

(** ** Deposits over the arithmetic of the store *)

Lemma rounded_post_deposit_200 profile_id userId amount w r w' :
  Rounded.post_deposit round SUM key_of_text parseInt profile_id userId
    amount w = (r, w') ->
  status r = 200 ->
  exists payer,
    fst (getProfile key_of_text profile_id w) = Next payer /\
    parseInt userId = Some (Profile.id payer) /\
    Profile.type payer = client /\
    (amount <=
     round (SUM (Rounded.prices_to_pay (store w) (Profile.id payer))
            * quarter))%Qc /\
    store w' =
      mkStore (update_balance (fun b => round (b + amount))%Qc
                 (Profile.id payer) (profiles (store w)))
              (contracts (store w)) (jobs (store w)).
Proof.
  destruct w as [st fs]; unfold Rounded.post_deposit; cbn [store faults].
  destruct profile_id as [[|a text]|];
    try (cbn; intros [= <- <-]; cbn; discriminate).
  rewrite getProfile_run.
  destruct (nth 0 fs false); [intros [= <- <-]; cbn; discriminate|].
  destruct (profile_where_id key_of_text (String a text) st) as [payer|];
    [|intros [= <- <-]; cbn; discriminate].
  rewrite rounded_deposit_handler_run, !nth_tl.
  unfold is_user.
  destruct (parseInt userId) as [n|];
    [|intros [= <- <-]; cbn; discriminate].
  destruct (Profile.id payer =? n) eqn:EU; cbn [negb orb];
    [|intros [= <- <-]; cbn; discriminate].
  destruct (Profile.type payer) eqn:ET; cbn [ProfileType_eqb negb];
    [|intros [= <- <-]; cbn; discriminate].
  destruct (nth 1 fs false); [intros [= <- <-]; cbn; discriminate|].
  destruct (Qcgtb amount _) eqn:EA; [intros [= <- <-]; cbn; discriminate|].
  destruct (nth 2 fs false); [intros [= <- <-]; cbn; discriminate|].
  intros [= <- <-] _; exists payer; cbn [fst store].
  apply Z.eqb_eq in EU; apply Qcgtb_false in EA; subst n.
  now repeat split.
Qed.

(** C6, as the code has it.  For a client depositing a number on the own
    account, with [T] what the store's [SUM] returns over the prices of
    the jobs whose [paid] is [null] on the client's [in_progress]
    contracts (0 over no job) and [T * 0.25] as the handler computes it:
    an amount equal to that product is accepted and the balance becomes
    [balance + amount] as the store computes it; every larger amount is
    answered 400 and the store is what it was. *)
Theorem deposit_cap profile_id userId amount w payer :
  SUM [] = 0%Qc ->
  resolves 3 (faults w) ->
  fst (getProfile key_of_text profile_id w) = Next payer ->
  parseInt userId = Some (Profile.id payer) ->
  Profile.type payer = client ->
  let T := SUM (Rounded.prices_to_pay (store w) (Profile.id payer)) in
  let cap := round (T * quarter)%Qc in
  let out := Rounded.post_deposit round SUM key_of_text parseInt
               profile_id userId amount w in
  (amount = cap ->
   fst out = json 200 (message "Deposit successful") /\
   balance_of (store (snd out)) (Profile.id payer) =
     Some (round (Profile.balance payer + amount))%Qc) /\
  ((cap < amount)%Qc ->
   fst out = json 400 (error "Deposit amount exceeds maximum allowed") /\
   store (snd out) = store w) /\
  (filter (job_to_pay (store w) (Profile.id payer)) (jobs (store w)) = [] ->
   T = 0%Qc).
Proof.
  intros S0 F G U C T cap out; subst T cap out.
  rewrite (rounded_post_deposit_next _ userId amount _ _ G).
  rewrite rounded_deposit_handler_run, !nth_tl.
  unfold is_user; rewrite U, Z.eqb_refl, C; cbn [negb orb ProfileType_eqb].
  rewrite (F 1%nat), (F 2%nat) by lia.
  split; [|split].
  - intros ->.
    assert (E : forall x, Qcgtb x x = false)
      by (intros x; apply Qcgtb_false, Qcle_refl).
    rewrite E; split; [reflexivity|].
    cbn [snd store]; unfold balance_of; cbn [profiles].
    rewrite profile_by_id_update_same.
    destruct (getProfile_next key_of_text _ _ _ G)
      as (text & _ & _ & _ & FP & _).
    apply profile_where_id_found in FP as (_ & _ & ->).
    reflexivity.
  - intros LT; apply Qcgtb_true in LT; rewrite LT. now split.
  - intros E; unfold Rounded.prices_to_pay; now rewrite E.
Qed.

(** X16. A deposit of a number that is answered 200 was asked by a client
    for the own account, and the amount is at most the bound the handler
    computes: 0.25 times what the store's [SUM] returns over the prices
    of the client's jobs with [paid: null] on [in_progress] contracts. *)
Theorem deposit_accepted_within_bound profile_id userId amount w r w' :
  Rounded.post_deposit round SUM key_of_text parseInt profile_id userId
    amount w = (r, w') ->
  status r = 200 ->
  exists payer,
    fst (getProfile key_of_text profile_id w) = Next payer /\
    parseInt userId = Some (Profile.id payer) /\
    Profile.type payer = client /\
    (amount <=
     round (SUM (Rounded.prices_to_pay (store w) (Profile.id payer))
            * quarter))%Qc.
Proof.
  intros R OK.
  destruct (rounded_post_deposit_200 _ _ _ _ _ _ R OK)
    as (payer & G & U & T & LE & _).
  now exists payer.
Qed.

(** X17. A deposit of a number that is answered 200 sets the balance [b]
    of the caller to [b + amount] as the store computes it and writes
    nothing else: no other balance, no contract, no job.  The sum of all
    balances moves by what the caller's balance moves, which is the
    amount when the addition is exact.  Profile ids are unique. *)
Theorem deposit_adds_amount profile_id userId amount w r w' :
  NoDup (profile_ids (store w)) ->
  Rounded.post_deposit round SUM key_of_text parseInt profile_id userId
    amount w = (r, w') ->
  status r = 200 ->
  exists payer b,
    fst (getProfile key_of_text profile_id w) = Next payer /\
    balance_of (store w) (Profile.id payer) = Some b /\
    balance_of (store w') (Profile.id payer) = Some (round (b + amount))%Qc /\
    total_balance (store w') =
      (total_balance (store w) + (round (b + amount) - b))%Qc /\
    (round (b + amount) = (b + amount)%Qc ->
     total_balance (store w') = (total_balance (store w) + amount)%Qc) /\
    (forall pid, pid <> Profile.id payer ->
                 balance_of (store w') pid = balance_of (store w) pid) /\
    contracts (store w') = contracts (store w) /\
    jobs (store w') = jobs (store w).
Proof.
  intros D R OK.
  destruct (rounded_post_deposit_200 _ _ _ _ _ _ R OK)
    as (payer & G & _ & _ & _ & ->).
  destruct (getProfile_next key_of_text _ _ _ G) as (text & _ & _ & _ & FP & _).
  apply profile_where_id_found in FP as (_ & _ & FP).
  exists payer, (Profile.balance payer).
  assert (T : total_balance
                (mkStore (update_balance (fun b => round (b + amount))%Qc
                            (Profile.id payer) (profiles (store w)))
                         (contracts (store w)) (jobs (store w))) =
              (total_balance (store w)
               + (round (Profile.balance payer + amount)
                  - Profile.balance payer))%Qc).
  { unfold total_balance; cbn [profiles].
    rewrite (sum_balances_update _ _ _ payer D FP). ring. }
  repeat split; try assumption.
  - unfold balance_of; now rewrite FP.
  - unfold balance_of; cbn [profiles].
    now rewrite profile_by_id_update_same, FP.
  - intros E; rewrite T, E; ring.
  - intros pid N; unfold balance_of; cbn [profiles].
    now rewrite profile_by_id_update_other.
Qed.

End Arithmetic.

(** ** The exact handlers are the rounded ones without rounding *)

Lemma rounded_post_pay_exact key_of_text profile_id job_id now w :
  Rounded.post_pay (fun q => q) key_of_text profile_id job_id now w =
  post_pay key_of_text profile_id job_id now w.
Proof. reflexivity. Qed.

Lemma rounded_post_deposit_exact key_of_text parseInt profile_id userId
  amount w :
  Rounded.post_deposit (fun q => q) exact_sum key_of_text parseInt
    profile_id userId amount w =
  post_deposit key_of_text parseInt profile_id userId amount w.
Proof.
  unfold Rounded.post_deposit, post_deposit.
  destruct (getProfile key_of_text profile_id w) as [[r|payer] [st fs]];
    [reflexivity|].
  rewrite rounded_deposit_handler_run, deposit_handler_run.
  unfold Rounded.prices_to_pay, jobs_to_pay_total.
  now rewrite sum_price_exact.
Qed.

(** ** Binary64 rounding *)






(** On the amounts used below, [round64] is the arithmetic of the
    machine's binary64 numbers. *)
Lemma round64_is_machine_arithmetic :
  is_float (dec 11 100) (flt 11 100) = true /\
  is_float (dec 30 100) (flt 30 100) = true /\
  is_float (dec 10 100) (flt 10 100) = true /\
  is_float (round64 (dec 11 100 - dec 10 100))
           (PrimFloat.sub (flt 11 100) (flt 10 100)) = true /\
  is_float (round64 (dec 30 100 + dec 10 100))
           (PrimFloat.add (flt 30 100) (flt 10 100)) = true /\
  is_float (sum64 [dec 1 10; dec 7 10])
           (PrimFloat.add (PrimFloat.add (flt 0 1) (flt 1 10)) (flt 7 10))
    = true /\
  is_float (round64 (sum64 [dec 1 10; dec 7 10] * quarter))
           (PrimFloat.mul
              (PrimFloat.add (PrimFloat.add (flt 0 1) (flt 1 10)) (flt 7 10))
              (flt 1 4)) = true /\
  is_float (dec 2 10) (flt 2 10) = true.
Proof. vm_compute; repeat split. Qed.

Section Listed.

Variable key_of_text : string -> option Z.

(** X15. For a caller who is the contractor of no contract, the jobs that
    [GET /jobs/unpaid] lists are, in the same order, the jobs over whose
    prices the [Job.sum] of the deposit handler runs. *)
Theorem unpaid_listing_is_deposit_base profile_id w rows payer :
  fst (get_unpaid key_of_text profile_id w) = Payload rows ->
  fst (getProfile key_of_text profile_id w) = Next payer ->
  (forall c, In c (contracts (store w)) ->
             Contract.ContractorId c <> Profile.id payer) ->
  map fst rows =
    filter (job_to_pay (store w) (Profile.id payer)) (jobs (store w)) /\
  map Job.price (map fst rows) =
    Rounded.prices_to_pay (store w) (Profile.id payer).
Proof.
  intros H G NC; unfold get_unpaid in H.
  rewrite (guarded_next key_of_text _ _ _ _ G), unpaid_handler_run in H.
  destruct (nth 0 (tl (faults w)) false); [discriminate H|].
  injection H as <-.
  assert (E : map fst (unpaid_jobs (Profile.id payer) (store w)) =
              filter (job_to_pay (store w) (Profile.id payer))
                     (jobs (store w))).
  { unfold unpaid_jobs.
    induction (jobs (store w)) as [|j js IH]; [reflexivity|].
    cbn [flat_map filter]. rewrite map_app, IH.
    unfold unpaid_row, job_to_pay.
    destruct (Job.paid j); [reflexivity|].
    destruct (find _ (contracts (store w))) as [c|] eqn:F; [|reflexivity].
    destruct (find_some _ _ F) as [IC _].
    assert (B : (Contract.ContractorId c =? Profile.id payer) = false)
      by (apply Z.eqb_neq; now apply NC).
    rewrite B, Bool.orb_false_r, Bool.andb_comm.
    now destruct (_ && _). }
  split; [exact E|].
  unfold Rounded.prices_to_pay; now rewrite E.
Qed.

End Listed.

(** ** Runs in binary64 *)

(** C1, on the code.  In binary64 client 1 (0.11) pays job 20 (0.10) to
    contractor 2 (0.30): the request is answered 200, the contractor does
    not hold the exact [0.30 + 0.10], and the sum of the two balances and
    the sum of all balances have moved.  And when profile 1 is both the
    client and the contractor of the contract, the request is answered
    200 and the balance of the paying client is what it was. *)
Lemma payJob_rounds_and_pays_oneself :
  let w := mkWorld cents [] in
  let out := run_pay64 (Some "1") "20" 7 w in
  let own := run_pay64 (Some "1") "20" 7 (mkWorld own_contract []) in
  fst out = json 200 (message "Payment successful") /\
  balance_of (store (snd out)) 2 <> Some (dec 30 100 + dec 10 100)%Qc /\
  both_balances (store (snd out)) 1 2 <> both_balances (store w) 1 2 /\
  total_balance (store (snd out)) <> total_balance (store w) /\
  fst own = json 200 (message "Payment successful") /\
  amount_of own_contract 1 = Some (100 # 1) /\
  amount_of (store (snd own)) 1 = Some (100 # 1).
Proof.
  repeat split; try (vm_compute; reflexivity);
    intros E;
    [apply (f_equal (option_map this)) in E
    |apply (f_equal (option_map this)) in E
    |apply (f_equal this) in E];
    vm_compute in E; discriminate E.
Qed.

(** C6, in binary64.  Client 1 has two jobs to pay, of prices 0.1 and
    0.7: the store's sum is not 0.8, a quarter of it is below 0.2, and a
    deposit of 0.2 is answered 400. *)
Lemma deposit_quarter_of_rounded_sum_refused :
  let w := mkWorld tenths [] in
  let out := run_deposit64 (Some "1") "1" (dec 2 10) w in
  sum64 (Rounded.prices_to_pay tenths 1) <> dec 8 10 /\
  (round64 (sum64 (Rounded.prices_to_pay tenths 1) * quarter) < dec 2 10)%Qc /\
  fst out = json 400 (error "Deposit amount exceeds maximum allowed") /\
  store (snd out) = store w.
Proof.
  repeat split; try (vm_compute; reflexivity).
  intros E; apply (f_equal this) in E; vm_compute in E; discriminate E.
Qed.

(** ** The theorems over the arithmetic of the store at work *)

Lemma cents_profile_ids : NoDup (profile_ids cents).
Proof. cbn; repeat constructor; cbn; intuition discriminate. Qed.

Lemma payJob_moves_price_witness :
  let w := mkWorld cents [] in
  let out := run_pay64 (Some "1") "20" 7 w in
  exists payer j c bc,
    fst (getProfile decimal_text (Some "1") w) = Next payer /\
    job_with_contract decimal_text "20" (store w) = Some (j, Some c) /\
    Contract.ClientId c = Profile.id payer /\
    balance_of (store w) (Profile.id payer) = Some bc /\
    (forall pid,
       pid <> Profile.id payer -> pid <> Contract.ContractorId c ->
       balance_of (store (snd out)) pid = balance_of (store w) pid) /\
    (forall bk,
       Contract.ContractorId c <> Profile.id payer ->
       balance_of (store w) (Contract.ContractorId c) = Some bk ->
       let bc' := round64 (bc - Job.price j)%Qc in
       let bk' := round64 (bk + Job.price j)%Qc in
       balance_of (store (snd out)) (Profile.id payer) = Some bc' /\
       balance_of (store (snd out)) (Contract.ContractorId c) = Some bk' /\
       both_balances (store w) (Profile.id payer) (Contract.ContractorId c)
         = Some (bc + bk)%Qc /\
       both_balances (store (snd out)) (Profile.id payer)
         (Contract.ContractorId c) = Some (bc' + bk')%Qc /\
       total_balance (store (snd out)) =
         (total_balance (store w) + ((bc' + bk') - (bc + bk)))%Qc /\
       (bc' = (bc - Job.price j)%Qc -> bk' = (bk + Job.price j)%Qc ->
        both_balances (store (snd out)) (Profile.id payer)
          (Contract.ContractorId c)
          = both_balances (store w) (Profile.id payer)
              (Contract.ContractorId c)
        /\ total_balance (store (snd out)) = total_balance (store w))).
Proof.
  intros w out.
  apply (payJob_moves_price round64 decimal_text (Some "1") "20" 7 w
           (fst out) (snd out)).
  - apply cents_profile_ids.
  - apply surjective_pairing.
  - reflexivity.
Defined.


Lemma deposit_cap_witness :
  let w := mkWorld tenths [] in
  let T := sum64 (Rounded.prices_to_pay (store w) 1) in
  let cap := round64 (T * quarter)%Qc in
  let out := run_deposit64 (Some "1") "1" cap w in
  fst out = json 200 (message "Deposit successful") /\
  balance_of (store (snd out)) 1 =
    Some (round64 (Profile.balance alice + cap))%Qc.
Proof.
  intros w T cap out.
  destruct (deposit_cap round64 sum64 decimal_text decimal_text (Some "1") "1"
              cap w alice) as (H & _).
  - reflexivity.
  - apply resolves_nil.
  - reflexivity.
  - reflexivity.
  - reflexivity.
  - apply H; reflexivity.
Defined.



Lemma payment_removes_job_from_deposit_base_witness :
  let w := mkWorld tenths [] in
  let out := run_pay64 (Some "1") "20" 7 w in
  exists j oc,
    job_with_contract decimal_text "20" (store w) = Some (j, oc) /\
    forall clientId,
      filter (job_to_pay (store (snd out)) clientId) (jobs (store (snd out))) =
      filter (fun x => job_to_pay (store w) clientId x
                       && negb (Job.id x =? Job.id j))
             (jobs (store w)).
Proof.
  intros w out.
  apply (payment_removes_job_from_deposit_base round64 decimal_text (Some "1")
           "20" 7 w (fst out) (snd out)).
  - apply surjective_pairing.
  - reflexivity.
Defined.

Lemma unpaid_listing_is_deposit_base_witness :
  let w := mkWorld tenths [] in
  let c := Contract.mk 10 1 2 in_progress in
  let rows := [(Job.mk 20 10 (dec 1 10) None None, c);
               (Job.mk 21 10 (dec 7 10) None None, c)] in
  map fst rows = filter (job_to_pay (store w) 1) (jobs (store w)) /\
  map Job.price (map fst rows) = Rounded.prices_to_pay (store w) 1.
Proof.
  intros w c rows.
  apply (unpaid_listing_is_deposit_base decimal_text (Some "1") w rows alice).
  - reflexivity.
  - reflexivity.
  - intros x [<- | []]; cbn; discriminate.
Defined.

Lemma deposit_accepted_within_bound_witness :
  let w := mkWorld tenths [] in
  let amount := dec 1 10 in
  let out := run_deposit64 (Some "1") "1" amount w in
  exists payer,
    fst (getProfile decimal_text (Some "1") w) = Next payer /\
    decimal_text "1" = Some (Profile.id payer) /\
    Profile.type payer = client /\
    (amount <=
     round64 (sum64 (Rounded.prices_to_pay (store w) (Profile.id payer))
              * quarter))%Qc.
Proof.
  intros w amount out.
  apply (deposit_accepted_within_bound round64 sum64 decimal_text decimal_text
           (Some "1") "1" amount w (fst out) (snd out)).
  - apply surjective_pairing.
  - reflexivity.
Defined.

Lemma tenths_profile_ids : NoDup (profile_ids tenths).
Proof. cbn; repeat constructor; cbn; intuition discriminate. Qed.

Lemma deposit_adds_amount_witness :
  let w := mkWorld tenths [] in
  let amount := dec 1 10 in
  let out := run_deposit64 (Some "1") "1" amount w in
  exists payer b,
    fst (getProfile decimal_text (Some "1") w) = Next payer /\
    balance_of (store w) (Profile.id payer) = Some b /\
    balance_of (store (snd out)) (Profile.id payer)
      = Some (round64 (b + amount))%Qc /\
    total_balance (store (snd out)) =
      (total_balance (store w) + (round64 (b + amount) - b))%Qc /\
    (round64 (b + amount) = (b + amount)%Qc ->
     total_balance (store (snd out)) = (total_balance (store w) + amount)%Qc) /\
    (forall pid, pid <> Profile.id payer ->
                 balance_of (store (snd out)) pid = balance_of (store w) pid) /\
    contracts (store (snd out)) = contracts (store w) /\
    jobs (store (snd out)) = jobs (store w).
Proof.
  intros w amount out.
  apply (deposit_adds_amount round64 sum64 decimal_text decimal_text
           (Some "1") "1" amount w (fst out) (snd out)).
  - apply tenths_profile_ids.
  - apply surjective_pairing.
  - reflexivity.
Defined.
